(** * EduQuest Signal Scout: the LangGraph evaluator pipeline

    A shallow embedding of [graphs/state.py], [graphs/nodes.py] and
    [graphs/evaluator_graph.py]: the classify, validate, score and
    normalize/drop/error stages, the two routers, and the graph that
    sequences them for one chunk.

    Python values that come back from the language model are kept
    dynamically typed (a [json] tree), because the nodes copy them into
    the state without checking their types.  Exceptions are explicit:
    every computation that can raise returns a [Res]. *)

From Stdlib Require Import ZArith String List Floats Lia.
From stdpp Require Import gmap strings list.

Open Scope string_scope.

(* ===================================================================== *)
(** ** Python values and exceptions *)
(* ===================================================================== *)

(** What [json.loads] can return.  A JSON object becomes a Python [dict],
    hence a finite map; integers are unbounded; floats are binary64. *)
#[warnings="-register-all"]
Inductive json : Type :=
| JNull
| JBool (b : bool)
| JInt (z : Z)
| JFloat (f : float)
| JStr (s : string)
| JArr (l : list json)
| JObj (m : gmap string json).

(** The exception classes the pipeline can meet.  [str e] is what the
    handlers interpolate in their messages.  [ExternalError] stands for
    whatever a collaborator raises (file system, transport, time-out). *)
Inductive exception : Type :=
| ValueError (msg : string)
| KeyError (key : string)
| TypeError (msg : string)
| AttributeError (msg : string)
| OverflowError (msg : string)
| ExternalError (msg : string)
| GraphRecursionError.

Definition str (e : exception) : string :=
  match e with
  | ValueError msg | TypeError msg | AttributeError msg
  | OverflowError msg | ExternalError msg => msg
  | KeyError key => "'" +:+ key +:+ "'"
  | GraphRecursionError => "Recursion limit reached"
  end.

(** The result of running a piece of Python: a value or a raised exception. *)
Inductive Res (A : Type) : Type :=
| Returns (a : A)
| Raises (e : exception).
Arguments Returns {A} a.
Arguments Raises {A} e.

Definition res_bind {A B} (r : Res A) (k : A -> Res B) : Res B :=
  match r with
  | Returns a => k a
  | Raises e => Raises e
  end.

(** *** Strings *)

(** [needle in haystack] for two [str]: is there a position of [haystack]
    at which [needle] starts?  No case folding, no normalisation. *)
Fixpoint str_contains (haystack needle : string) : bool :=
  if String.prefix needle haystack then true
  else match haystack with
       | EmptyString => false
       | String _ rest => str_contains rest needle
       end.

(** The mathematical reading of the same test. *)
Definition is_substring (needle haystack : string) : Prop :=
  exists before after, haystack = before +:+ needle +:+ after.

(** *** Operators on decoded values *)

Definition type_name (v : json) : string :=
  match v with
  | JNull => "NoneType"
  | JBool _ => "bool"
  | JInt _ => "int"
  | JFloat _ => "float"
  | JStr _ => "str"
  | JArr _ => "list"
  | JObj _ => "dict"
  end.

(** [v == s] for a string literal [s]. *)
Definition py_eq_str (v : json) (s : string) : bool :=
  match v with
  | JStr t => String.eqb t s
  | _ => false
  end.

(** [key in container] for a string [key]. *)
Definition py_in (key : string) (container : json) : Res bool :=
  match container with
  | JObj m => Returns (bool_decide (is_Some (m !! key)))
  | JArr l => Returns (existsb (fun v => py_eq_str v key) l)
  | JStr s => Returns (str_contains s key)
  | v => Raises (TypeError ("argument of type '" +:+ type_name v +:+ "' is not iterable"))
  end.

(** [needle in haystack] where [haystack] is a [str] and [needle] is any
    value: Python accepts only a [str] on the left. *)
Definition py_in_str (needle : json) (haystack : string) : Res bool :=
  match needle with
  | JStr s => Returns (str_contains haystack s)
  | v => Raises (TypeError ("'in <string>' requires string as left operand, not "
                             +:+ type_name v))
  end.

(** [container[key]] for a string [key]. *)
Definition py_getitem (container : json) (key : string) : Res json :=
  match container with
  | JObj m => match m !! key with
              | Some v => Returns v
              | None => Raises (KeyError key)
              end
  | JArr _ => Raises (TypeError "list indices must be integers or slices, not str")
  | JStr _ => Raises (TypeError "string indices must be integers, not 'str'")
  | v => Raises (TypeError ("'" +:+ type_name v +:+ "' object is not subscriptable"))
  end.

(** [container.get(key, default)]: only a [dict] has the method. *)
Definition py_get (container : json) (key : string) (dflt : json) : Res json :=
  match container with
  | JObj m => Returns (default dflt (m !! key))
  | v => Raises (AttributeError ("'" +:+ type_name v +:+ "' object has no attribute 'get'"))
  end.

(** *** Numeric conversions *)

(** [float(n)] for a Python integer: round to nearest-even, and refuse an
    integer too large for binary64. *)
Definition float_of_int (z : Z) : Res float :=
  match binary_normalize 53 1024 z 0 false with
  | S754_infinity _ => Raises (OverflowError "int too large to convert to float")
  | sf => Returns (SF2Prim sf)
  end.

(** [int(x)] for a Python float: truncation towards zero. *)
Definition int_of_float (f : float) : Res Z :=
  match Prim2SF f with
  | S754_zero _ => Returns 0%Z
  | S754_infinity _ => Raises (OverflowError "cannot convert float infinity to integer")
  | S754_nan => Raises (ValueError "cannot convert float NaN to integer")
  | S754_finite sign m e =>
      let magnitude := Z.shiftl (Z.pos m) e in
      Returns (if sign then (- magnitude)%Z else magnitude)
  end.

Section Conversions.
(** The interpreter's parsers of numeric text, [float(s)] and [int(s)]
    on a [str]; [None] when the text is not a literal of that kind. *)
Variable parse_float : string -> option float.
Variable parse_int : string -> option Z.

(** [float(v)] *)
Definition py_float (v : json) : Res float :=
  match v with
  | JFloat f => Returns f
  | JInt z => float_of_int z
  | JBool b => Returns (if b then 1%float else 0%float)
  | JStr s => match parse_float s with
              | Some f => Returns f
              | None => Raises (ValueError ("could not convert string to float: '"
                                            +:+ s +:+ "'"))
              end
  | v => Raises (TypeError ("float() argument must be a string or a real number, not '"
                            +:+ type_name v +:+ "'"))
  end.

(** [int(v)] *)
Definition py_int (v : json) : Res Z :=
  match v with
  | JInt z => Returns z
  | JBool b => Returns (if b then 1%Z else 0%Z)
  | JFloat f => int_of_float f
  | JStr s => match parse_int s with
              | Some z => Returns z
              | None => Raises (ValueError ("invalid literal for int() with base 10: '"
                                            +:+ s +:+ "'"))
              end
  | v => Raises (TypeError ("int() argument must be a string, a bytes-like object or a real number, not '"
                            +:+ type_name v +:+ "'"))
  end.
End Conversions.

(* ===================================================================== *)
(** ** graphs/state.py *)
(* ===================================================================== *)

Record ChunkData : Type := {
  artifact_id : string;
  chunk_id : string;
  district : string;
  meeting_date : option string;
  source_url : string;
  board_page_url : string;
  text : string
}.

(** [classify_node] stores the model's [category], [evidence_snippet] and
    [rationale] as they came; only [confidence] goes through [float]. *)
Record ClassificationResult : Type := {
  category : json;
  confidence : float;
  evidence_snippet : json;
  rationale : json
}.

Record ScoreBreakdown : Type := {
  intent_strength : Z;
  time_window : Z;
  eduquest_fit : Z;
  evidence_quality : Z
}.

Record ScoringResult : Type := {
  opportunity_score : Z;
  score_breakdown : ScoreBreakdown;
  summary : json;
  recommended_next_step : json
}.

Module SignalRecord.
Record t : Type := {
  chunk_id : string;
  artifact_id : string;
  district : string;
  meeting_date : option string;
  source_url : string;
  board_page_url : string;
  category : json;
  confidence : float;
  opportunity_score : Z;
  evidence_snippet : json;
  summary : json;
  recommended_next_step : json;
  rationale : json;
  generated_at : string
}.
End SignalRecord.

(** The graph state.  The three [NotRequired] keys are optional. *)
Record EvaluatorState : Type := {
  chunk : ChunkData;
  classification : option ClassificationResult;
  scoring : option ScoringResult;
  errors : list string;
  keep : bool;
  signal_record : option SignalRecord.t
}.

(** What a node returns: a dict holding the keys it wants to overwrite. *)
Record Update : Type := {
  upd_classification : option ClassificationResult;
  upd_scoring : option ScoringResult;
  upd_errors : option (list string);
  upd_keep : option bool;
  upd_signal_record : option SignalRecord.t
}.

(** [{}] *)
Definition no_update : Update :=
  {| upd_classification := None; upd_scoring := None; upd_errors := None;
     upd_keep := None; upd_signal_record := None |}.

(** The graph writes every key of the returned dict over the state (the
    schema declares no reducer) and leaves the other keys alone. *)
Definition merge (state : EvaluatorState) (u : Update) : EvaluatorState :=
  {| chunk := chunk state;
     classification := match upd_classification u with
                       | Some c => Some c
                       | None => classification state
                       end;
     scoring := match upd_scoring u with
                | Some sc => Some sc
                | None => scoring state
                end;
     errors := match upd_errors u with
               | Some errs => errs
               | None => errors state
               end;
     keep := match upd_keep u with
             | Some k => k
             | None => keep state
             end;
     signal_record := match upd_signal_record u with
                      | Some r => Some r
                      | None => signal_record state
                      end |}.

(* ===================================================================== *)
(** ** The world outside the pipeline *)
(* ===================================================================== *)

(** [src/config.py]: the two settings the evaluator reads. *)
Class Settings : Type := {
  confidence_threshold : float;
  score_threshold : Z
}.

(** The values [Settings] falls back to without environment overrides. *)
Definition default_settings : Settings :=
  {| confidence_threshold := 0x1.6666666666666p-1%float;  (* 0.7 *)
     score_threshold := 50 |}.

(** Everything the nodes call that lives outside the repository: the file
    system holding the prompt templates, [str.format], the language model
    behind [invoke_llm_json], the clock, and the interpreter's parsers of
    numeric text.  [World] is the state these effects read and change;
    the same prompt may be answered differently in different worlds. *)
Class Runtime : Type := {
  World : Type;
  read_text : string -> World -> Res string * World;
  format_classify : string -> string -> Res string;
  format_scoring :
    string -> string -> string -> json -> float -> json -> json -> Res string;
  invoke_llm_json : string -> World -> Res json * World;
  now_isoformat : World -> string;
  float_of_str : string -> option float;
  int_of_str : string -> option Z
}.

(** *** The monad of a node body: world passing with exceptions *)

Definition M `{Runtime} (A : Type) : Type := World -> Res A * World.

Definition ret `{Runtime} {A} (a : A) : M A := fun w => (Returns a, w).

Definition raise `{Runtime} {A} (e : exception) : M A := fun w => (Raises e, w).

Definition bind `{Runtime} {A B} (m : M A) (k : A -> M B) : M B :=
  fun w => match m w with
           | (Returns a, w') => k a w'
           | (Raises e, w') => (Raises e, w')
           end.

(** A pure computation that may raise. *)
Definition lift `{Runtime} {A} (r : Res A) : M A := fun w => (r, w).

(** [try: body  except Exception as e: handler e] *)
Definition try_except `{Runtime} {A} (body : M A) (handler : exception -> M A) : M A :=
  fun w => match body w with
           | (Returns a, w') => (Returns a, w')
           | (Raises e, w') => handler e w'
           end.

Notation "x <- m ;; k" := (bind m (fun x => k))
  (at level 100, m at next level, right associativity).

(* ===================================================================== *)
(** ** graphs/nodes.py *)
(* ===================================================================== *)

Section Nodes.
Context `{rt : Runtime} `{cfg : Settings}.

Definition _load_prompt (name : string) : M string := read_text name.

Definition CONFIDENCE_THRESHOLD : float := confidence_threshold.
Definition SCORE_THRESHOLD : Z := score_threshold.

(** [{"errors": errs}] *)
Definition errors_update (errs : list string) : Update :=
  {| upd_classification := None; upd_scoring := None; upd_errors := Some errs;
     upd_keep := None; upd_signal_record := None |}.

(** [{"errors": errs, "keep": k}] *)
Definition errors_keep_update (errs : list string) (k : bool) : Update :=
  {| upd_classification := None; upd_scoring := None; upd_errors := Some errs;
     upd_keep := Some k; upd_signal_record := None |}.

(** [{"keep": k}] *)
Definition keep_update (k : bool) : Update :=
  {| upd_classification := None; upd_scoring := None; upd_errors := None;
     upd_keep := Some k; upd_signal_record := None |}.

(** [{"classification": c}] *)
Definition classification_update (c : ClassificationResult) : Update :=
  {| upd_classification := Some c; upd_scoring := None; upd_errors := None;
     upd_keep := None; upd_signal_record := None |}.

(** [{"scoring": sc}] *)
Definition scoring_update (sc : ScoringResult) : Update :=
  {| upd_classification := None; upd_scoring := Some sc; upd_errors := None;
     upd_keep := None; upd_signal_record := None |}.

(** [{"signal_record": r, "keep": k}] *)
Definition signal_update (r : SignalRecord.t) (k : bool) : Update :=
  {| upd_classification := None; upd_scoring := None; upd_errors := None;
     upd_keep := Some k; upd_signal_record := Some r |}.

Definition required_fields : list string :=
  ["category"; "confidence"; "evidence_snippet"; "rationale"].

(** The loop over [required_fields]: the first field that is not in
    [result] raises. *)
Fixpoint check_required_fields (result : json) (fields : list string) : Res unit :=
  match fields with
  | [] => Returns tt
  | field :: rest =>
      match py_in field result with
      | Raises e => Raises e
      | Returns true => check_required_fields result rest
      | Returns false =>
          Raises (ValueError ("Missing required field in classification: " +:+ field))
      end
  end.

Definition classify_node (state : EvaluatorState) : M Update :=
  try_except
    (let chunk := chunk state in
     prompt_template <- _load_prompt "classify_prompt.txt" ;;
     prompt <- lift (format_classify prompt_template (text chunk)) ;;
     result <- invoke_llm_json prompt ;;
     _ <- lift (check_required_fields result required_fields) ;;
     r_category <- lift (py_getitem result "category") ;;
     r_confidence <- lift (py_getitem result "confidence") ;;
     f_confidence <- lift (py_float float_of_str r_confidence) ;;
     r_evidence <- lift (py_getitem result "evidence_snippet") ;;
     r_rationale <- lift (py_getitem result "rationale") ;;
     let classification :=
       {| category := r_category;
          confidence := f_confidence;
          evidence_snippet := r_evidence;
          rationale := r_rationale |} in
     ret (classification_update classification))
    (fun e => ret (errors_update (errors state ++ ["classify_node: " +:+ str e]))).

Definition evidence_validation_node (state : EvaluatorState) : M Update :=
  match classification state with
  | None =>
      ret (errors_keep_update (errors state ++ ["No classification to validate"]) false)
  | Some classification =>
      let snippet := evidence_snippet classification in
      let chunk_text := text (chunk state) in
      found <- lift (py_in_str snippet chunk_text) ;;
      if negb found then
        ret (errors_keep_update
               (errors state ++ ["Evidence snippet not found verbatim in chunk text"])
               false)
      else ret no_update
  end.

(** [int(result.get("score_breakdown", {}).get(name, 0))] *)
Definition breakdown_field (result : json) (name : string) : Res Z :=
  res_bind (py_get result "score_breakdown" (JObj ∅)) (fun breakdown =>
  res_bind (py_get breakdown name (JInt 0)) (fun v =>
  py_int int_of_str v)).

Definition score_node (state : EvaluatorState) : M Update :=
  try_except
    (classification <- lift (match classification state with
                             | Some c => Returns c
                             | None => Raises (KeyError "classification")
                             end) ;;
     let chunk := chunk state in
     prompt_template <- _load_prompt "scoring_prompt.txt" ;;
     prompt <- lift (format_scoring prompt_template
                       (district chunk)
                       (match meeting_date chunk with
                        | Some d => if String.eqb d "" then "Unknown" else d
                        | None => "Unknown"
                        end)
                       (category classification)
                       (confidence classification)
                       (evidence_snippet classification)
                       (rationale classification)) ;;
     result <- invoke_llm_json prompt ;;
     b_intent <- lift (breakdown_field result "intent_strength") ;;
     b_time <- lift (breakdown_field result "time_window") ;;
     b_fit <- lift (breakdown_field result "eduquest_fit") ;;
     b_quality <- lift (breakdown_field result "evidence_quality") ;;
     let score_breakdown :=
       {| intent_strength := b_intent; time_window := b_time;
          eduquest_fit := b_fit; evidence_quality := b_quality |} in
     r_score <- lift (py_getitem result "opportunity_score") ;;
     i_score <- lift (py_int int_of_str r_score) ;;
     r_summary <- lift (py_getitem result "summary") ;;
     r_next <- lift (py_getitem result "recommended_next_step") ;;
     let scoring :=
       {| opportunity_score := i_score;
          score_breakdown := score_breakdown;
          summary := r_summary;
          recommended_next_step := r_next |} in
     ret (scoring_update scoring))
    (fun e => ret (errors_update (errors state ++ ["score_node: " +:+ str e]))).

Definition normalize_node (state : EvaluatorState) : M Update :=
  let chunk := chunk state in
  classification <- lift (match classification state with
                           | Some c => Returns c
                           | None => Raises (KeyError "classification")
                           end) ;;
  scoring <- lift (match scoring state with
                   | Some sc => Returns sc
                   | None => Raises (KeyError "scoring")
                   end) ;;
  fun w =>
    let signal_record :=
      {| SignalRecord.chunk_id := chunk_id chunk;
         SignalRecord.artifact_id := artifact_id chunk;
         SignalRecord.district := district chunk;
         SignalRecord.meeting_date := meeting_date chunk;
         SignalRecord.source_url := source_url chunk;
         SignalRecord.board_page_url := board_page_url chunk;
         SignalRecord.category := category classification;
         SignalRecord.confidence := confidence classification;
         SignalRecord.opportunity_score := opportunity_score scoring;
         SignalRecord.evidence_snippet := evidence_snippet classification;
         SignalRecord.summary := summary scoring;
         SignalRecord.recommended_next_step := recommended_next_step scoring;
         SignalRecord.rationale := rationale classification;
         SignalRecord.generated_at := now_isoformat w |} in
    (Returns (signal_update signal_record true), w).

Definition drop_node (state : EvaluatorState) : M Update :=
  ret (keep_update false).

Definition error_handler_node (state : EvaluatorState) : M Update :=
  ret (keep_update false).

(** *** Router functions *)

(** Python truth value of a list: non-empty. *)
Definition truthy {A} (l : list A) : bool :=
  match l with
  | [] => false
  | _ :: _ => true
  end.

Definition decision_router (state : EvaluatorState) : string :=
  if truthy (errors state) then "error_handler"
  else match classification state with
       | None => "error_handler"
       | Some classification =>
           if py_eq_str (category classification) "none" then "drop"
           else if PrimFloat.ltb (confidence classification) CONFIDENCE_THRESHOLD
                then "drop"
                else "score"
       end.

Definition final_decision_router (state : EvaluatorState) : string :=
  if truthy (errors state) then "error_handler"
  else match scoring state with
       | None => "error_handler"
       | Some scoring =>
           if (SCORE_THRESHOLD <=? opportunity_score scoring)%Z
              || py_eq_str (recommended_next_step scoring) "reach_out_now"
           then "normalize"
           else "drop"
       end.
End Nodes.

(* ===================================================================== *)
(** ** graphs/evaluator_graph.py *)
(* ===================================================================== *)

(** The six nodes [build_evaluator_graph] adds. *)
Inductive node : Type :=
| Classify
| ValidateEvidence
| Score
| Normalize
| Drop
| ErrorHandler.

#[global] Instance node_eq_dec : EqDecision node.
Proof. solve_decision. Defined.

(** The name each node is registered under. *)
Definition node_name (n : node) : string :=
  match n with
  | Classify => "classify"
  | ValidateEvidence => "validate_evidence"
  | Score => "score"
  | Normalize => "normalize"
  | Drop => "drop"
  | ErrorHandler => "error_handler"
  end.

Definition all_nodes : list node :=
  [Classify; ValidateEvidence; Score; Normalize; Drop; ErrorHandler].

Definition node_of_name (name : string) : option node :=
  find (fun n => String.eqb (node_name n) name) all_nodes.

(** An outgoing edge: [add_edge] to a node or to [END], or
    [add_conditional_edges] with a router and its path map. *)
Inductive edge : Type :=
| EdgeTo (target : node)
| EdgeEnd
| EdgeConditional (router : EvaluatorState -> string) (path_map : list (string * string)).

(** Lookup in a path map, a dict literal with distinct keys. *)
Fixpoint path_lookup (path_map : list (string * string)) (key : string) : option string :=
  match path_map with
  | [] => None
  | (k, v) :: rest => if String.eqb k key then Some v else path_lookup rest key
  end.

(** The nodes the runtime may enter first, and the limit on the number
    of steps of one [invoke] (the library's default). *)
Definition entry_point : node := Classify.
Definition recursion_limit : nat := 25.

Section Graph.
Context `{rt : Runtime} `{cfg : Settings}.

Definition node_function (n : node) : EvaluatorState -> M Update :=
  match n with
  | Classify => classify_node
  | ValidateEvidence => evidence_validation_node
  | Score => score_node
  | Normalize => normalize_node
  | Drop => drop_node
  | ErrorHandler => error_handler_node
  end.

Definition out_edge (n : node) : edge :=
  match n with
  | Classify => EdgeTo ValidateEvidence
  | ValidateEvidence =>
      EdgeConditional decision_router
        [("score", "score"); ("drop", "drop"); ("error_handler", "error_handler")]
  | Score =>
      EdgeConditional final_decision_router
        [("normalize", "normalize"); ("drop", "drop");
         ("error_handler", "error_handler")]
  | Normalize => EdgeEnd
  | Drop => EdgeEnd
  | ErrorHandler => EdgeEnd
  end.

(** Where the graph goes after [n] has run and its update is merged:
    [None] is [END].  A route outside the path map is an error. *)
Definition next_node (n : node) (state : EvaluatorState) : Res (option node) :=
  match out_edge n with
  | EdgeTo target => Returns (Some target)
  | EdgeEnd => Returns None
  | EdgeConditional router path_map =>
      let route := router state in
      match path_lookup path_map route with
      | Some name =>
          match node_of_name name with
          | Some target => Returns (Some target)
          | None => Raises (KeyError name)
          end
      | None => Raises (KeyError route)
      end
  end.

(** Every node an edge of [n] can lead to. *)
Definition successors (n : node) : list node :=
  match out_edge n with
  | EdgeTo target => [target]
  | EdgeEnd => []
  | EdgeConditional _ path_map =>
      omap (fun kv => node_of_name (snd kv)) path_map
  end.

(** [graph.invoke]: run the node, merge its update, follow the edge;
    an exception of a node leaves the graph at once.  The second
    component records the nodes executed, in order. *)
Fixpoint run (steps : nat) (n : node) (state : EvaluatorState)
  : M (EvaluatorState * list node) :=
  match steps with
  | O => raise GraphRecursionError
  | S steps' =>
      update <- node_function n state ;;
      let state' := merge state update in
      next <- lift (next_node n state') ;;
      match next with
      | None => ret (state', [n])
      | Some n' =>
          rest <- run steps' n' state' ;;
          ret (fst rest, n :: snd rest)
      end
  end.

Definition invoke (initial_state : EvaluatorState) : M (EvaluatorState * list node) :=
  run recursion_limit entry_point initial_state.

Definition initial_state (chunk : ChunkData) : EvaluatorState :=
  {| chunk := chunk; classification := None; scoring := None;
     errors := []; keep := false; signal_record := None |}.

(** [evaluate_chunk], with the executed nodes kept next to the final
    state. *)
Definition evaluate_chunk_trace (chunk : ChunkData) : M (EvaluatorState * list node) :=
  invoke (initial_state chunk).

Definition evaluate_chunk (chunk : ChunkData) : M EvaluatorState :=
  traced <- evaluate_chunk_trace chunk ;;
  ret (fst traced).

(** The nodes with an edge to [END]. *)
Definition terminal (n : node) : bool :=
  match out_edge n with
  | EdgeEnd => true
  | _ => false
  end.

(** The classify stage up to and including the model call. *)
Definition classify_request (chunk : ChunkData) : M json :=
  prompt_template <- _load_prompt "classify_prompt.txt" ;;
  prompt <- lift (format_classify prompt_template (text chunk)) ;;
  invoke_llm_json prompt.

(** The score stage up to and including the model call. *)
Definition score_request (chunk : ChunkData) (c : ClassificationResult) : M json :=
  prompt_template <- _load_prompt "scoring_prompt.txt" ;;
  prompt <- lift (format_scoring prompt_template
                    (district chunk)
                    (match meeting_date chunk with
                     | Some d => if String.eqb d "" then "Unknown" else d
                     | None => "Unknown"
                     end)
                    (category c) (confidence c) (evidence_snippet c) (rationale c)) ;;
  invoke_llm_json prompt.

(** What [classify_node] does with the model's answer, once it has it. *)
Definition parse_classification (result : json) : Res ClassificationResult :=
  res_bind (check_required_fields result required_fields) (fun _ =>
  res_bind (py_getitem result "category") (fun r_category =>
  res_bind (py_getitem result "confidence") (fun r_confidence =>
  res_bind (py_float float_of_str r_confidence) (fun f_confidence =>
  res_bind (py_getitem result "evidence_snippet") (fun r_evidence =>
  res_bind (py_getitem result "rationale") (fun r_rationale =>
  Returns {| category := r_category; confidence := f_confidence;
             evidence_snippet := r_evidence; rationale := r_rationale |})))))).

(** What [score_node] does with the model's answer, once it has it. *)
Definition parse_scoring (result : json) : Res ScoringResult :=
  res_bind (breakdown_field result "intent_strength") (fun b_intent =>
  res_bind (breakdown_field result "time_window") (fun b_time =>
  res_bind (breakdown_field result "eduquest_fit") (fun b_fit =>
  res_bind (breakdown_field result "evidence_quality") (fun b_quality =>
  res_bind (py_getitem result "opportunity_score") (fun r_score =>
  res_bind (py_int int_of_str r_score) (fun i_score =>
  res_bind (py_getitem result "summary") (fun r_summary =>
  res_bind (py_getitem result "recommended_next_step") (fun r_next =>
  Returns {| opportunity_score := i_score;
             score_breakdown :=
               {| intent_strength := b_intent; time_window := b_time;
                  eduquest_fit := b_fit; evidence_quality := b_quality |};
             summary := r_summary;
             recommended_next_step := r_next |})))))))).



(** How one traversal can end.  The first three constructors are the
    terminal nodes; the last is an exception leaving the graph from the
    evidence check, on a classification that [classify_node] wrote
    ([written]) with a snippet that is not a string. *)
Inductive traversal (chunk0 : ChunkData) (written : ClassificationResult -> Prop)
  : Res (EvaluatorState * list node) -> Prop :=
| traversal_normalized final c sc r s :
    chunk final = chunk0 ->
    errors final = [] ->
    keep final = true ->
    classification final = Some c ->
    scoring final = Some sc ->
    signal_record final = Some r ->
    category c <> JStr "none" ->
    evidence_snippet c = JStr s ->
    SignalRecord.evidence_snippet r = JStr s ->
    is_substring s (text chunk0) ->
    traversal chunk0 written
      (Returns (final, [Classify; ValidateEvidence; Score; Normalize]))
| traversal_dropped final stages :
    stages = [Classify; ValidateEvidence; Drop] \/
    stages = [Classify; ValidateEvidence; Score; Drop] ->
    chunk final = chunk0 ->
    errors final = [] ->
    keep final = false ->
    signal_record final = None ->
    traversal chunk0 written (Returns (final, stages))
| traversal_errored final stages :
    stages = [Classify; ValidateEvidence; ErrorHandler] \/
    stages = [Classify; ValidateEvidence; Score; ErrorHandler] ->
    chunk final = chunk0 ->
    errors final <> [] ->
    keep final = false ->
    signal_record final = None ->
    traversal chunk0 written (Returns (final, stages))
| traversal_raised c msg :
    written c ->
    (forall s, evidence_snippet c <> JStr s) ->
    traversal chunk0 written (Raises (TypeError msg)).
End Graph.

(* ===================================================================== *)
(** ** A scripted runtime, to run the pipeline on concrete inputs *)
(* ===================================================================== *)

(** The world is the list of answers the model will give, in order; the
    templates are read without failure and the prompt is the template
    followed by the text.  Numeric text is not recognised. *)
Definition scripted : Runtime :=
  {| World := list (Res json);
     read_text := fun name w => (Returns name, w);
     format_classify := fun template text => Returns (template +:+ text);
     format_scoring := fun template district _ _ _ _ _ => Returns (template +:+ district);
     invoke_llm_json := fun _ w =>
       match w with
       | answer :: later => (answer, later)
       | [] => (Raises (ExternalError "Request timed out."), [])
       end;
     now_isoformat := fun _ => "2026-01-15T09:30:00";
     float_of_str := fun _ => None;
     int_of_str := fun _ => None |}.

Definition sample_chunk : ChunkData :=
  {| artifact_id := "a1";
     chunk_id := "a1_c0";
     district := "Alpine";
     meeting_date := Some "2026-01-13";
     source_url := "https://example.org/minutes.pdf";
     board_page_url := "https://example.org/board";
     text := "The Board will evaluate a new literacy curriculum pilot in Q1 2026." |}.

(** 0.82 and 0.95 *)
Definition conf_082 : float := 0x1.a3d70a3d70a3dp-1%float.
Definition conf_095 : float := 0x1.e666666666666p-1%float.

Definition sample_classification : json :=
  JObj (<["category" := JStr "pilot_evaluation"]>
       (<["confidence" := JFloat conf_082]>
       (<["evidence_snippet" := JStr "evaluate a new literacy curriculum pilot in Q1 2026"]>
       (<["rationale" := JStr "The board plans a pilot."]> ∅)))).

Definition sample_scoring : json :=
  JObj (<["opportunity_score" := JInt 62]>
       (<["score_breakdown" := JObj (<["intent_strength" := JInt 20]> ∅)]>
       (<["summary" := JStr "Literacy pilot planned."]>
       (<["recommended_next_step" := JStr "research_more"]> ∅)))).

(** A state as a router sees it: the sample chunk, the given errors and
    the given results. *)
Definition routed_state (errs : list string) (c : option ClassificationResult)
    (sc : option ScoringResult) : EvaluatorState :=
  {| chunk := sample_chunk; classification := c; scoring := sc;
     errors := errs; keep := false; signal_record := None |}.

Definition classified (cat : json) (conf : float) : ClassificationResult :=
  {| category := cat; confidence := conf;
     evidence_snippet := JStr "literacy curriculum pilot";
     rationale := JStr "The board plans a pilot." |}.

Definition scored (score : Z) (next : json) : ScoringResult :=
  {| opportunity_score := score;
     score_breakdown := {| intent_strength := 0; time_window := 0;
                           eduquest_fit := 0; evidence_quality := 0 |};
     summary := JStr "Literacy pilot planned.";
     recommended_next_step := next |}.

(** A model answer whose evidence snippet is JSON [null]. *)
Definition null_snippet_classification : json :=
  JObj (<["category" := JStr "none"]>
       (<["confidence" := JFloat conf_095]>
       (<["evidence_snippet" := JNull]>
       (<["rationale" := JStr "No purchasing intent in this passage."]> ∅)))).

(** A model answer that paraphrases instead of quoting. *)
Definition paraphrased_classification : json :=
  JObj (<["category" := JStr "pilot_evaluation"]>
       (<["confidence" := JFloat conf_082]>
       (<["evidence_snippet" := JStr "the board evaluates a literacy pilot"]>
       (<["rationale" := JStr "The board plans a pilot."]> ∅)))).

(** A model answer without the [confidence] field. *)
Definition missing_confidence_classification : gmap string json :=
  <["category" := JStr "pilot_evaluation"]>
  (<["evidence_snippet" := JStr "evaluate a new literacy curriculum pilot in Q1 2026"]>
  (<["rationale" := JStr "The board plans a pilot."]> ∅)).





Definition sample_classification_fields : gmap string json :=
  match sample_classification with
  | JObj m => m
  | _ => ∅
  end.

(** The state after a passing classification of the sample chunk. *)
Definition classified_state : EvaluatorState :=
  routed_state [] (Some (classified (JStr "pilot_evaluation") conf_082)) None.

(** The same with a paraphrased snippet. *)
Definition paraphrased_state : EvaluatorState :=
  routed_state []
    (Some {| category := JStr "pilot_evaluation"; confidence := conf_082;
             evidence_snippet := JStr "the board evaluates a literacy pilot";
             rationale := JStr "The board plans a pilot." |})
    None.

(* ===================================================================== *)
(** ** The paths of one traversal, with their final states *)
(* ===================================================================== *)

(** The record [normalize_node] assembles from the chunk, the
    classification, the scoring and the clock reading. *)
Definition projected_record (chunk0 : ChunkData) (c : ClassificationResult)
    (sc : ScoringResult) (generated : string) : SignalRecord.t :=
  {| SignalRecord.chunk_id := chunk_id chunk0;
     SignalRecord.artifact_id := artifact_id chunk0;
     SignalRecord.district := district chunk0;
     SignalRecord.meeting_date := meeting_date chunk0;
     SignalRecord.source_url := source_url chunk0;
     SignalRecord.board_page_url := board_page_url chunk0;
     SignalRecord.category := category c;
     SignalRecord.confidence := confidence c;
     SignalRecord.opportunity_score := opportunity_score sc;
     SignalRecord.evidence_snippet := evidence_snippet c;
     SignalRecord.summary := summary sc;
     SignalRecord.recommended_next_step := recommended_next_step sc;
     SignalRecord.rationale := rationale c;
     SignalRecord.generated_at := generated |}.

Section Outcomes.
Context `{rt : Runtime} `{cfg : Settings}.

(** What [decision_router] asks of a classification before it lets the
    chunk be scored, together with what the evidence check asked. *)
Definition passes (chunk0 : ChunkData) (c : ClassificationResult) : Prop :=
  category c <> JStr "none" /\
  PrimFloat.ltb (confidence c) CONFIDENCE_THRESHOLD = false /\
  exists s, evidence_snippet c = JStr s /\ is_substring s (text chunk0).

(** The state [score_node] is entered with. *)
Definition validated_state (chunk0 : ChunkData) (c : ClassificationResult)
  : EvaluatorState :=
  {| chunk := chunk0; classification := Some c; scoring := None;
     errors := []; keep := false; signal_record := None |}.

(** The seven ways through the graph from the initial state of [chunk0]
    in world [w]: what was executed, the final state, the final world. *)
Inductive outcome (chunk0 : ChunkData) (w : World)
  : Res (EvaluatorState * list node) * World -> Prop :=
| outcome_classify_failed msg w1 :
    classify_node (initial_state chunk0) w
    = (Returns (errors_update ["classify_node: " +:+ msg]), w1) ->
    outcome chunk0 w
      (Returns ({| chunk := chunk0; classification := None; scoring := None;
                   errors := ["classify_node: " +:+ msg;
                              "No classification to validate"];
                   keep := false; signal_record := None |},
                [Classify; ValidateEvidence; ErrorHandler]), w1)
| outcome_snippet_not_str c w1 e :
    classify_node (initial_state chunk0) w = (Returns (classification_update c), w1) ->
    py_in_str (evidence_snippet c) (text chunk0) = Raises e ->
    outcome chunk0 w (Raises e, w1)
| outcome_snippet_not_found c s w1 :
    classify_node (initial_state chunk0) w = (Returns (classification_update c), w1) ->
    evidence_snippet c = JStr s ->
    ~ is_substring s (text chunk0) ->
    outcome chunk0 w
      (Returns ({| chunk := chunk0; classification := Some c; scoring := None;
                   errors := ["Evidence snippet not found verbatim in chunk text"];
                   keep := false; signal_record := None |},
                [Classify; ValidateEvidence; ErrorHandler]), w1)
| outcome_policy_drop c s w1 :
    classify_node (initial_state chunk0) w = (Returns (classification_update c), w1) ->
    evidence_snippet c = JStr s ->
    is_substring s (text chunk0) ->
    category c = JStr "none" \/
    PrimFloat.ltb (confidence c) CONFIDENCE_THRESHOLD = true ->
    outcome chunk0 w
      (Returns (validated_state chunk0 c, [Classify; ValidateEvidence; Drop]), w1)
| outcome_score_failed c msg w1 w2 :
    classify_node (initial_state chunk0) w = (Returns (classification_update c), w1) ->
    passes chunk0 c ->
    score_node (validated_state chunk0 c) w1
    = (Returns (errors_update ["score_node: " +:+ msg]), w2) ->
    outcome chunk0 w
      (Returns ({| chunk := chunk0; classification := Some c; scoring := None;
                   errors := ["score_node: " +:+ msg];
                   keep := false; signal_record := None |},
                [Classify; ValidateEvidence; Score; ErrorHandler]), w2)
| outcome_low_score c sc w1 w2 :
    classify_node (initial_state chunk0) w = (Returns (classification_update c), w1) ->
    passes chunk0 c ->
    score_node (validated_state chunk0 c) w1 = (Returns (scoring_update sc), w2) ->
    (opportunity_score sc < SCORE_THRESHOLD)%Z ->
    recommended_next_step sc <> JStr "reach_out_now" ->
    outcome chunk0 w
      (Returns ({| chunk := chunk0; classification := Some c; scoring := Some sc;
                   errors := []; keep := false; signal_record := None |},
                [Classify; ValidateEvidence; Score; Drop]), w2)
| outcome_signal c sc w1 w2 :
    classify_node (initial_state chunk0) w = (Returns (classification_update c), w1) ->
    passes chunk0 c ->
    score_node (validated_state chunk0 c) w1 = (Returns (scoring_update sc), w2) ->
    (SCORE_THRESHOLD <= opportunity_score sc)%Z \/
    recommended_next_step sc = JStr "reach_out_now" ->
    outcome chunk0 w
      (Returns ({| chunk := chunk0; classification := Some c; scoring := Some sc;
                   errors := []; keep := true;
                   signal_record :=
                     Some (projected_record chunk0 c sc (now_isoformat w2)) |},
                [Classify; ValidateEvidence; Score; Normalize]), w2).
End Outcomes.

(** A model answer that finds no signal, quoting the text. *)
Definition none_classification : json :=
  JObj (<["category" := JStr "none"]>
       (<["confidence" := JFloat conf_095]>
       (<["evidence_snippet" := JStr "The Board will evaluate"]>
       (<["rationale" := JStr "No purchasing intent in this passage."]> ∅)))).

(* ===================================================================== *)
(** ** graphs/evaluator_graph.py: the batch function *)
(* ===================================================================== *)

Section Batch.
Context `{rt : Runtime} `{cfg : Settings}.

(** One turn of the loop of [evaluate_chunks]: the chunk's record is
    appended when the final state has [keep] and a signal record; an
    exception of the traversal is logged and the loop goes on. *)
Definition evaluate_chunks_turn (signals : list SignalRecord.t) (chunk : ChunkData)
  : M (list SignalRecord.t) :=
  try_except
    (final_state <- evaluate_chunk chunk ;;
     if keep final_state then
       match signal_record final_state with
       | Some r => ret (signals ++ [r])%list
       | None => ret signals
       end
     else ret signals)
    (fun e => ret signals).

Fixpoint evaluate_chunks_loop (signals : list SignalRecord.t) (chunks : list ChunkData)
  : M (list SignalRecord.t) :=
  match chunks with
  | [] => ret signals
  | chunk :: rest =>
      signals' <- evaluate_chunks_turn signals chunk ;;
      evaluate_chunks_loop signals' rest
  end.

Definition evaluate_chunks (chunks : list ChunkData) : M (list SignalRecord.t) :=
  evaluate_chunks_loop [] chunks.
End Batch.

(** A signal record that was made from this chunk: same identifiers, a
    category other than ["none"], evidence quoted from the chunk's text. *)
Definition produced_from (r : SignalRecord.t) (chunk0 : ChunkData) : Prop :=
  SignalRecord.chunk_id r = chunk_id chunk0 /\
  SignalRecord.artifact_id r = artifact_id chunk0 /\
  SignalRecord.category r <> JStr "none" /\
  exists s, SignalRecord.evidence_snippet r = JStr s /\ is_substring s (text chunk0).

(* ===================================================================== *)
(** ** scripts/evaluate_with_langgraph.py: the evaluation loop of [main] *)
(* ===================================================================== *)

Module EvalRecord.
Record t : Type := {
  chunk_id : string;
  artifact_id : string;
  district : string;
  keep : bool;
  errors : list string;
  classification : option ClassificationResult;
  scoring : option ScoringResult;
  signal_record : option SignalRecord.t
}.
End EvalRecord.

(** What the loop carries: the lines appended to [evaluations.jsonl], one
    record each, and the two counters.  The file is the list of records
    written to it; a failing disk is outside the model. *)
Record Progress : Type := {
  eval_file : list EvalRecord.t;
  kept_count : nat;
  error_count : nat
}.

Section Driver.
Context `{rt : Runtime} `{cfg : Settings}.

(** The body of the [for] loop: evaluate, build the record from the final
    state, count it as kept when it has a signal record, write it; on an
    exception count an error and write an error record instead. *)
Definition evaluate_and_record (p : Progress) (chunk0 : ChunkData) : M Progress :=
  try_except
    (final_state <- evaluate_chunk chunk0 ;;
     let eval_record :=
       {| EvalRecord.chunk_id := chunk_id chunk0;
          EvalRecord.artifact_id := artifact_id chunk0;
          EvalRecord.district := district chunk0;
          EvalRecord.keep := keep final_state;
          EvalRecord.errors := errors final_state;
          EvalRecord.classification := classification final_state;
          EvalRecord.scoring := scoring final_state;
          EvalRecord.signal_record := signal_record final_state |} in
     let kept_count' :=
       match signal_record final_state with
       | Some _ => kept_count p + 1
       | None => kept_count p
       end in
     ret {| eval_file := (eval_file p ++ [eval_record])%list;
            kept_count := kept_count';
            error_count := error_count p |})
    (fun e =>
     let eval_record :=
       {| EvalRecord.chunk_id := chunk_id chunk0;
          EvalRecord.artifact_id := artifact_id chunk0;
          EvalRecord.district := district chunk0;
          EvalRecord.keep := false;
          EvalRecord.errors := [str e];
          EvalRecord.classification := None;
          EvalRecord.scoring := None;
          EvalRecord.signal_record := None |} in
     ret {| eval_file := (eval_file p ++ [eval_record])%list;
            kept_count := kept_count p;
            error_count := error_count p + 1 |}).

Fixpoint evaluation_loop (p : Progress) (chunks_to_evaluate : list ChunkData)
  : M Progress :=
  match chunks_to_evaluate with
  | [] => ret p
  | chunk0 :: rest =>
      p' <- evaluate_and_record p chunk0 ;;
      evaluation_loop p' rest
  end.

(** The loop as [main] starts it: empty counters, and nothing written by
    this run yet. *)
Definition run_evaluation (chunks_to_evaluate : list ChunkData) : M Progress :=
  evaluation_loop {| eval_file := []; kept_count := 0; error_count := 0 |}
    chunks_to_evaluate.
End Driver.

(** The chunks [main] evaluates: the first [limit] of the file when the
    limit is positive, then those whose id has no evaluation yet
    ([evaluated_ids] is empty under [--reprocess]). *)
Definition chunks_to_evaluate (limit : Z) (evaluated_ids : gset string)
    (chunks : list ChunkData) : list ChunkData :=
  let chunks := if (0 <? limit)%Z then take (Z.to_nat limit) chunks else chunks in
  filter (fun c => chunk_id c ∉ evaluated_ids) chunks.

(** A record as the loop writes it for this chunk. *)
Definition record_of (rec : EvalRecord.t) (chunk0 : ChunkData) : Prop :=
  EvalRecord.chunk_id rec = chunk_id chunk0 /\
  EvalRecord.artifact_id rec = artifact_id chunk0 /\
  EvalRecord.district rec = district chunk0 /\
  (EvalRecord.keep rec = true <-> is_Some (EvalRecord.signal_record rec)) /\
  (forall r, EvalRecord.signal_record rec = Some r ->
             EvalRecord.errors rec = [] /\ produced_from r chunk0) /\
  length (EvalRecord.errors rec) <= 2.

(* ===================================================================== *)
(** ** Text as characters *)
(* ===================================================================== *)

(** Where the code counts characters, cuts at an index or strips white
    space, a [str] is the list of its code points. *)
Abbreviation pystr := (list N).

(** A literal of the source, for literals made of ASCII characters. *)
Definition lit (s : string) : pystr :=
  map Ascii.N_of_ascii (String.list_ascii_of_string s).

(** [c.isspace()], which is also the class [\s] of [re] on a [str]. *)
Definition is_space (c : N) : bool :=
  ((9 <=? c) && (c <=? 13) || (28 <=? c) && (c <=? 32)
   || (c =? 133) || (c =? 160) || (c =? 5760)
   || (8192 <=? c) && (c <=? 8202)
   || (c =? 8232) || (c =? 8233) || (c =? 8239) || (c =? 8287) || (c =? 12288))%N.

(** [s.lstrip(chars)], [s.rstrip(chars)] and [s.strip(chars)], the set of
    characters given as a predicate. *)
Fixpoint lstrip_with (p : N -> bool) (s : pystr) : pystr :=
  match s with
  | [] => []
  | c :: rest => if p c then lstrip_with p rest else s
  end.

Fixpoint rstrip_with (p : N -> bool) (s : pystr) : pystr :=
  match s with
  | [] => []
  | c :: rest =>
      match rstrip_with p rest with
      | [] => if p c then [] else [c]
      | kept => c :: kept
      end
  end.

Definition strip_with (p : N -> bool) (s : pystr) : pystr :=
  rstrip_with p (lstrip_with p s).

(** [s.strip()] *)
Definition str_strip (s : pystr) : pystr := strip_with is_space s.

(** [s.startswith(needle)] *)
Fixpoint starts_with (needle s : pystr) : bool :=
  match needle, s with
  | [], _ => true
  | _ :: _, [] => false
  | a :: needle', b :: s' => (a =? b)%N && starts_with needle' s'
  end.

(** The lowest position of [s] at which [needle] starts. *)
Fixpoint find_index (s needle : pystr) : option nat :=
  if starts_with needle s then Some 0
  else match s with
       | [] => None
       | _ :: rest => S <$> find_index rest needle
       end.

(** [needle in s] *)
Definition str_in (needle s : pystr) : bool :=
  match find_index s needle with
  | Some _ => true
  | None => false
  end.

(** How a slice bound or a start position is brought into [0, len]. *)
Definition clamp_index (len i : Z) : Z :=
  if (i <? 0)%Z then Z.max (i + len) 0 else Z.min i len.

(** [s.find(needle, start)], and [s.find(needle)] for [start = 0]:
    the lowest index at or after [start], or -1. *)
Definition str_find_from (s needle : pystr) (start : Z) : Z :=
  let len := Z.of_nat (length s) in
  if (len <? start)%Z then (-1)%Z
  else
    let from := clamp_index len start in
    match find_index (drop (Z.to_nat from) s) needle with
    | Some i => (from + Z.of_nat i)%Z
    | None => (-1)%Z
    end.

Definition str_find (s needle : pystr) : Z := str_find_from s needle 0.

(** [s[start:stop]] *)
Definition py_slice (s : pystr) (start stop : Z) : pystr :=
  let len := Z.of_nat (length s) in
  let a := clamp_index len start in
  let b := clamp_index len stop in
  if (a <? b)%Z then take (Z.to_nat (b - a)) (drop (Z.to_nat a) s) else [].

(** The backtick. *)
Definition backtick : N := 96%N.

(** Neither end of the text is white space. *)
Definition stripped (s : pystr) : Prop :=
  (forall c, head s = Some c -> is_space c = false) /\
  (forall c, last s = Some c -> is_space c = false).

(* ===================================================================== *)
(** ** src/llm.py *)
(* ===================================================================== *)

(** The outcome of [json.loads]: a value, a [JSONDecodeError] with its
    message, or another exception.  The decoder raises a plain
    [ValueError] for an integer literal over the digit limit and a
    [RecursionError] for input nested too deep; neither is a
    [JSONDecodeError]. *)
Inductive decoded : Type :=
| Decoded (v : json)
| DecodeError (msg : string)
| DecodeRaises (e : exception).

Module Llm.

Definition _extract_json_from_response (content : pystr) : pystr :=
  let content :=
    if str_in (lit "```json") content then
      let start := (str_find content (lit "```json") + 7)%Z in
      let stop := str_find_from content (lit "```") start in
      str_strip (py_slice content start stop)
    else if str_in (lit "```") content then
      let start := (str_find content (lit "```") + 3)%Z in
      let stop := str_find_from content (lit "```") start in
      str_strip (py_slice content start stop)
    else content in
  str_strip content.

Section Call.
(** The configured key, the chat model behind [get_llm(...).invoke] with
    the [content] of its reply, and [json.loads]. *)
Variable W : Type.
Variable openai_api_key : string.
Variable chat : string -> W -> Res pystr * W.
Variable json_loads : pystr -> decoded.

(** [get_llm] refuses to build a client without a key. *)
Definition get_llm : Res unit :=
  if String.eqb openai_api_key "" then
    Raises (ValueError
              "OPENAI_API_KEY not set. Please set it in your .env file or environment.")
  else Returns tt.

Definition invoke_llm_json (prompt : string) (w : W) : Res json * W :=
  match get_llm with
  | Raises e => (Raises e, w)
  | Returns _ =>
      match chat prompt w with
      | (Raises e, w') => (Raises e, w')
      | (Returns response, w') =>
          let content := _extract_json_from_response response in
          match json_loads content with
          | Decoded v => (Returns v, w')
          | DecodeError msg =>
              (Raises (ValueError ("LLM response is not valid JSON: " +:+ msg)), w')
          | DecodeRaises e => (Raises e, w')
          end
      end
  end.
End Call.

End Llm.

(** A runtime whose model call is the [invoke_llm_json] of [src/llm.py];
    everything else is taken from [base]. *)
Definition with_llm (base : Runtime) (openai_api_key : string)
    (chat : string -> @World base -> Res pystr * @World base)
    (json_loads : pystr -> decoded) : Runtime :=
  {| World := @World base;
     read_text := @read_text base;
     format_classify := @format_classify base;
     format_scoring := @format_scoring base;
     invoke_llm_json := Llm.invoke_llm_json (@World base) openai_api_key chat json_loads;
     now_isoformat := @now_isoformat base;
     float_of_str := @float_of_str base;
     int_of_str := @int_of_str base |}.

(* ===================================================================== *)
(** ** src/utils.py *)
(* ===================================================================== *)

Definition truncate_text (text : pystr) (max_length : Z) : pystr :=
  if (Z.of_nat (length text) <=? max_length)%Z then text
  else (py_slice text 0 (max_length - 3) ++ lit "...")%list.

(** [re.sub(cls+, rep, s)] for a character class [cls]: every maximal run
    of characters of the class becomes one [rep].  [in_run] tells that
    the character before was of the class. *)
Fixpoint sub_runs (cls : N -> bool) (rep : pystr) (in_run : bool) (s : pystr) : pystr :=
  match s with
  | [] => []
  | c :: rest =>
      if cls c then
        if in_run then sub_runs cls rep true rest
        else (rep ++ sub_runs cls rep true rest)%list
      else c :: sub_runs cls rep false rest
  end.

Definition hyphen : N := 45%N.
Definition is_hyphen (c : N) : bool := (c =? hyphen)%N.

(** The class [[\s_]]. *)
Definition space_or_underscore (c : N) : bool := is_space c || (c =? 95)%N.

(** The class [[a-z0-9-]]. *)
Definition slug_char (c : N) : bool :=
  ((97 <=? c) && (c <=? 122) || (48 <=? c) && (c <=? 57) || (c =? 45))%N.

Section Slugify.
(** [str.lower], the interpreter's case mapping. *)
Variable lower : pystr -> pystr.

Definition slugify (text : pystr) : pystr :=
  let text := lower text in
  let text := sub_runs space_or_underscore [hyphen] false text in
  let text := filter (fun c => slug_char c = true) text in
  let text := sub_runs is_hyphen [hyphen] false text in
  strip_with is_hyphen text.
End Slugify.

(** No two hyphens in a row. *)
Fixpoint single_hyphens (s : pystr) : Prop :=
  match s with
  | a :: (b :: _) as rest => ~ (a = hyphen /\ b = hyphen) /\ single_hyphens rest
  | _ => True
  end.

(** Lower-casing of the ASCII letters only, to run [slugify] on ASCII text. *)
Definition ascii_lower (s : pystr) : pystr :=
  map (fun c => if ((65 <=? c) && (c <=? 90))%N then (c + 32)%N else c) s.

(* ===================================================================== *)
(** ** scripts/evaluate_with_langgraph.py: reading chunks.jsonl *)
(* ===================================================================== *)

(** Python's truth value of a decoded value. *)
Definition py_truthy (v : json) : bool :=
  match v with
  | JNull => false
  | JBool b => b
  | JInt z => negb (z =? 0)%Z
  | JFloat f => negb (PrimFloat.eqb f 0%float)
  | JStr s => negb (String.eqb s "")
  | JArr l => match l with [] => false | _ :: _ => true end
  | JObj m => negb (Nat.eqb (size m) 0)
  end.

(** The dict [load_chunks] builds for one line: the seven keys, with
    whatever values the line had for them. *)
Module LoadedChunk.
Record t : Type := {
  artifact_id : json;
  chunk_id : json;
  district : json;
  meeting_date : json;
  source_url : json;
  board_page_url : json;
  text : json
}.
End LoadedChunk.

Section LoadChunks.
Variable json_loads : pystr -> decoded.

(** The body of the [try]: the seven lookups on the decoded line. *)
Definition chunk_data_of (chunk : json) : Res LoadedChunk.t :=
  res_bind (py_get chunk "artifact_id" (JStr "")) (fun v_artifact =>
  res_bind (py_get chunk "chunk_id" (JStr "")) (fun v_chunk =>
  res_bind (py_get chunk "district" (JStr "")) (fun v_district =>
  res_bind (py_get chunk "meeting_date" JNull) (fun v_date =>
  res_bind (py_get chunk "source_url" (JStr "")) (fun v_source =>
  res_bind (py_get chunk "board_page_url" (JStr "")) (fun v_board =>
  res_bind (py_get chunk "text" (JStr "")) (fun v_text =>
  Returns {| LoadedChunk.artifact_id := v_artifact;
             LoadedChunk.chunk_id := v_chunk;
             LoadedChunk.district := v_district;
             LoadedChunk.meeting_date := if py_truthy v_date then v_date else JNull;
             LoadedChunk.source_url := v_source;
             LoadedChunk.board_page_url := v_board;
             LoadedChunk.text := v_text |}))))))).

(** The loop over the lines of the file, [chunks] being the list built so
    far.  Only a [JSONDecodeError] is caught: any other exception of the
    decoder, like one of the lookups, leaves the function. *)
Fixpoint load_chunks_loop (chunks : list LoadedChunk.t) (lines : list pystr)
  : Res (list LoadedChunk.t) :=
  match lines with
  | [] => Returns chunks
  | line :: rest =>
      let line := str_strip line in
      match line with
      | [] => load_chunks_loop chunks rest
      | _ :: _ =>
          match json_loads line with
          | DecodeError _ => load_chunks_loop chunks rest
          | DecodeRaises e => Raises e
          | Decoded chunk =>
              match chunk_data_of chunk with
              | Raises e => Raises e
              | Returns chunk_data => load_chunks_loop (chunks ++ [chunk_data]) rest
              end
          end
      end
  end.

Definition load_chunks (lines : list pystr) : Res (list LoadedChunk.t) :=
  load_chunks_loop [] lines.

(** A line the loop passes over: blank once stripped, or rejected by the
    decoder with a [JSONDecodeError]. *)
Definition skipped_line (line : pystr) : Prop :=
  str_strip line = [] \/ exists msg, json_loads (str_strip line) = DecodeError msg.

(** A line that holds JSON other than an object. *)
Definition non_object_line (line : pystr) : Prop :=
  str_strip line <> [] /\
  exists v, json_loads (str_strip line) = Decoded v /\
            forall m, v <> JObj m.
End LoadChunks.

(* ===================================================================== *)
(** ** scripts/export_signals.py: deduplication *)
(* ===================================================================== *)

(** *** Comparing decoded values as Python does *)

(** The exact value of a Python number: [m * 2^e], an infinity, or NaN. *)
Inductive number : Type :=
| Finite (m e : Z)
| PosInf
| NegInf
| NotANumber.

Definition number_of (v : json) : option number :=
  match v with
  | JBool b => Some (Finite (if b then 1 else 0) 0)
  | JInt z => Some (Finite z 0)
  | JFloat f =>
      Some match Prim2SF f with
           | S754_zero _ => Finite 0 0
           | S754_infinity sign => if sign then NegInf else PosInf
           | S754_nan => NotANumber
           | S754_finite sign m e => Finite (if sign then Z.neg m else Z.pos m) e
           end
  | _ => None
  end.

(** Exact comparison; [None] when a NaN is involved (every ordering and
    equality test on it is false). *)
Definition number_compare (a b : number) : option comparison :=
  match a, b with
  | NotANumber, _ | _, NotANumber => None
  | PosInf, PosInf | NegInf, NegInf => Some Eq
  | PosInf, _ | _, NegInf => Some Gt
  | NegInf, _ | _, PosInf => Some Lt
  | Finite m1 e1, Finite m2 e2 =>
      let e := Z.min e1 e2 in
      Some (m1 * 2 ^ (e1 - e) ?= m2 * 2 ^ (e2 - e))%Z
  end.

(** [v == w] for two values that can be dict keys: numbers by value
    (so [1 == 1.0 == True]), strings and [None] by identity of content. *)
Definition py_eq_scalar (v w : json) : bool :=
  match number_of v, number_of w with
  | Some a, Some b =>
      match number_compare a b with Some Eq => true | _ => false end
  | None, None =>
      match v, w with
      | JNull, JNull => true
      | JStr s, JStr t => String.eqb s t
      | _, _ => false
      end
  | _, _ => false
  end.

(** [hash(v)]: lists and dicts have none. *)
Definition py_hashable (v : json) : Res unit :=
  match v with
  | JArr _ | JObj _ =>
      Raises (TypeError ("unhashable type: '" +:+ type_name v +:+ "'"))
  | _ => Returns tt
  end.

(** A continuation byte of UTF-8. *)
Definition is_continuation (a : Ascii.ascii) : bool :=
  let n := Ascii.N_of_ascii a in ((128 <=? n) && (n <? 192))%N.

(** [s[:n]] for a [str] held as its UTF-8 bytes: the first [n]
    characters, each with its continuation bytes. *)
Fixpoint utf8_take (n : nat) (s : string) : string :=
  match s with
  | EmptyString => EmptyString
  | String a rest =>
      if is_continuation a then String a (utf8_take n rest)
      else match n with
           | O => EmptyString
           | S n' => String a (utf8_take n' rest)
           end
  end.

(** [v[:n]]: strings and lists can be sliced. *)
Definition py_head (n : nat) (v : json) : Res json :=
  match v with
  | JStr s => Returns (JStr (utf8_take n s))
  | JArr l => Returns (JArr (take n l))
  | JObj _ => Raises (TypeError "unhashable type: 'slice'")
  | v => Raises (TypeError ("'" +:+ type_name v +:+ "' object is not subscriptable"))
  end.

Section Deduplicate.
(** [a > b] for two lists, left to the interpreter. *)
Variable list_gt : list json -> list json -> Res bool.

(** [v > w] *)
Definition py_gt (v w : json) : Res bool :=
  match number_of v, number_of w with
  | Some a, Some b =>
      Returns match number_compare a b with Some Gt => true | _ => false end
  | None, None =>
      match v, w with
      | JStr s, JStr t =>
          Returns match String.compare s t with Gt => true | _ => false end
      | JArr l, JArr k => list_gt l k
      | _, _ =>
          Raises (TypeError ("'>' not supported between instances of '"
                             +:+ type_name v +:+ "' and '" +:+ type_name w +:+ "'"))
      end
  | _, _ =>
      Raises (TypeError ("'>' not supported between instances of '"
                         +:+ type_name v +:+ "' and '" +:+ type_name w +:+ "'"))
  end.

(** The dedup key of a signal. *)
Definition dedup_key (signal : json) : Res (json * json * json) :=
  res_bind (py_get signal "artifact_id" (JStr "")) (fun k_artifact =>
  res_bind (py_get signal "category" (JStr "")) (fun k_category =>
  res_bind (py_get signal "evidence_snippet" (JStr "")) (fun v_evidence =>
  res_bind (py_head 100 v_evidence) (fun k_evidence =>
  Returns (k_artifact, k_category, k_evidence))))).

(** Equality of two keys, as the dict compares them. *)
Definition key_eqb (k1 k2 : json * json * json) : bool :=
  py_eq_scalar k1.1.1 k2.1.1 && py_eq_scalar k1.1.2 k2.1.2 && py_eq_scalar k1.2 k2.2.

(** Hashing a key hashes its three components. *)
Definition key_hashable (k : json * json * json) : Res unit :=
  res_bind (py_hashable k.1.1) (fun _ =>
  res_bind (py_hashable k.1.2) (fun _ =>
  py_hashable k.2)).

(** [groups], a dict in insertion order: the signal joins the list of its
    key, a new key going to the end. *)
Fixpoint add_to_group (groups : list ((json * json * json) * list json))
    (key : json * json * json) (signal : json)
  : list ((json * json * json) * list json) :=
  match groups with
  | [] => [(key, [signal])]
  | (key', members) :: rest =>
      if key_eqb key' key then (key', members ++ [signal])%list :: rest
      else (key', members) :: add_to_group rest key signal
  end.

(** The first loop. *)
Fixpoint group_signals (groups : list ((json * json * json) * list json))
    (signals : list json) : Res (list ((json * json * json) * list json)) :=
  match signals with
  | [] => Returns groups
  | signal :: rest =>
      res_bind (dedup_key signal) (fun key =>
      res_bind (key_hashable key) (fun _ =>
      group_signals (add_to_group groups key signal) rest))
  end.

(** [s.get("opportunity_score", 0)] *)
Definition score_key (signal : json) : Res json :=
  py_get signal "opportunity_score" (JInt 0).

(** [max(group, key=...)] after its first element: a later signal takes
    over only when its score is greater. *)
Fixpoint max_from (best : json) (best_score : json) (rest : list json) : Res json :=
  match rest with
  | [] => Returns best
  | signal :: rest' =>
      res_bind (score_key signal) (fun score =>
      res_bind (py_gt score best_score) (fun greater =>
      if greater then max_from signal score rest'
      else max_from best best_score rest'))
  end.

Definition max_by_score (group : list json) : Res json :=
  match group with
  | [] => Raises (ValueError "max() arg is an empty sequence")
  | signal :: rest =>
      res_bind (score_key signal) (fun score => max_from signal score rest)
  end.

(** The second loop, over [groups.values()]. *)
Fixpoint best_of_each (groups : list ((json * json * json) * list json))
  : Res (list json) :=
  match groups with
  | [] => Returns []
  | (_, members) :: rest =>
      res_bind (max_by_score members) (fun best =>
      res_bind (best_of_each rest) (fun later =>
      Returns (best :: later)))
  end.

Definition deduplicate_signals (signals : list json) : Res (list json) :=
  res_bind (group_signals [] signals) best_of_each.
End Deduplicate.

(** A signal as the pipeline writes it: an object whose artifact id,
    category and evidence snippet, where present, are strings, and whose
    score, where present, is an integer. *)
Definition text_field (m : gmap string json) (name : string) : option string :=
  match m !! name with
  | None => Some ""
  | Some (JStr s) => Some s
  | Some _ => None
  end.

Definition typed_signal (signal : json) (key : string * string * string) (score : Z)
  : Prop :=
  exists m a c e,
    signal = JObj m /\
    text_field m "artifact_id" = Some a /\
    text_field m "category" = Some c /\
    text_field m "evidence_snippet" = Some e /\
    key = (a, c, utf8_take 100 e) /\
    default (JInt 0) (m !! "opportunity_score") = JInt score.

(* ===================================================================== *)
(** ** Sample inputs for the scripts and the model call *)
(* ===================================================================== *)

(** An integer literal of 4301 digits, one over the digit limit of
    [int]. *)
Definition long_number : pystr := repeat 49%N 4301.

(** A decoder that knows three texts: the empty object, the empty list,
    and the long number, which it refuses as [int] does.  Any other text
    is not JSON to it. *)
Definition sample_json_loads (s : pystr) : decoded :=
  if decide (s = lit "{}") then Decoded (JObj ∅)
  else if decide (s = lit "[]") then Decoded (JArr [])
  else if decide (s = long_number) then
    DecodeRaises
      (ValueError "Exceeds the limit (4300 digits) for integer string conversion")
  else DecodeError "Expecting value: line 1 column 1 (char 0)".

(** A model that wraps its answer in a fence, whatever the prompt. *)
Definition sample_chat (prompt : string) (w : @World scripted)
  : Res pystr * @World scripted :=
  (Returns (lit "Here is the result: ```json {} ``` Let me know.")%list, w).

(** A signal record with the fields the deduplication reads. *)
Definition sample_signal (evidence : string) (score : Z) : json :=
  JObj (<["artifact_id" := JStr "a1"]>
       (<["category" := JStr "pilot_evaluation"]>
       (<["evidence_snippet" := JStr evidence]>
       (<["opportunity_score" := JInt score]> ∅)))).

(** Lists are never compared on these samples. *)
Definition sample_list_gt (l k : list json) : Res bool := Returns false.

(* ===================================================================== *)
(** ** Strings: the substring test is the substring relation *)
(* ===================================================================== *)

Lemma append_nil (s : string) : "" +:+ s = s.
Proof. reflexivity. Qed.

Lemma append_cons (x : Ascii.ascii) (s t : string) :
  String x s +:+ t = String x (s +:+ t).
Proof. reflexivity. Qed.

Lemma prefix_app (a b : string) :
  String.prefix a b = true <-> exists rest, b = a +:+ rest.
Proof.
  revert b. induction a as [|x a IH]; intros b.
  - split; [intros _; exists b; reflexivity | intros _; destruct b; reflexivity].
  - destruct b as [|y b]; simpl.
    + split; [discriminate | intros [rest Hrest]; rewrite append_cons in Hrest; discriminate].
    + destruct (Ascii.ascii_dec x y) as [->|Hne].
      * rewrite IH. split; intros [rest Hrest]; exists rest.
        -- now rewrite append_cons, Hrest.
        -- rewrite append_cons in Hrest. now injection Hrest.
      * split; [discriminate |].
        intros [rest Hrest]. rewrite append_cons in Hrest. congruence.
Qed.

Lemma str_contains_spec (haystack needle : string) :
  str_contains haystack needle = true <-> is_substring needle haystack.
Proof.
  unfold is_substring.
  induction haystack as [|x h IH]; cbn [str_contains].
  - destruct (String.prefix needle "") eqn:Hp.
    + split; [intros _ | intros _; reflexivity].
      apply prefix_app in Hp as [rest Hrest]. exists "", rest. exact Hrest.
    + split; [discriminate |].
      intros (before & after & Heq).
      destruct before; [| rewrite append_cons in Heq; discriminate].
      rewrite append_nil in Heq.
      assert (String.prefix needle "" = true) as Hp'
        by (apply prefix_app; eauto).
      congruence.
  - destruct (String.prefix needle (String x h)) eqn:Hp.
    + split; [intros _ | intros _; reflexivity].
      apply prefix_app in Hp as [rest Hrest]. exists "", rest. exact Hrest.
    + rewrite IH. split.
      * intros (before & after & ->). exists (String x before), after. reflexivity.
      * intros (before & after & Heq).
        destruct before as [|y before].
        -- rewrite append_nil in Heq.
           assert (String.prefix needle (String x h) = true) as Hp'
             by (apply prefix_app; eauto).
           congruence.
        -- rewrite append_cons in Heq. injection Heq as _ ->. eauto.
Qed.

Lemma py_eq_str_spec (v : json) (s : string) :
  py_eq_str v s = true <-> v = JStr s.
Proof.
  destruct v; simpl; try (split; [discriminate | intros [=]]).
  rewrite String.eqb_eq. split; [now intros -> | now intros [= ->]].
Qed.

Lemma py_eq_str_false (v : json) (s : string) :
  py_eq_str v s = false <-> v <> JStr s.
Proof.
  rewrite <- py_eq_str_spec. destruct (py_eq_str v s); split; congruence.
Qed.

Lemma truthy_spec {A} (l : list A) : truthy l = true <-> l <> [].
Proof. destruct l; simpl; split; congruence. Qed.

(** A binary64 value is never strictly below itself (this covers NaN). *)
Lemma float_ltb_irrefl (x : float) : PrimFloat.ltb x x = false.
Proof.
  rewrite ltb_spec. unfold SFltb, SFcompare.
  destruct (Prim2SF x) as [s|s| |s m e]; try reflexivity; try (destruct s; reflexivity).
  destruct s; rewrite Z.compare_refl, Pos.compare_refl; reflexivity.
Qed.

(* ===================================================================== *)
(** ** The routers *)
(* ===================================================================== *)

Section Routers.
Context `{cfg : Settings}.

(** C2.  The post-validation router checks, in this order: an
    accumulated error (to [error_handler]); a missing classification (to
    [error_handler]); category ["none"] (to [drop], whatever the
    confidence); confidence strictly below the threshold (to [drop]);
    and sends everything else, a confidence equal to the threshold
    included, to [score].  The default threshold is 0.7. *)
Theorem decision_router_precedence (state : EvaluatorState) :
  (errors state <> [] -> decision_router state = "error_handler") /\
  (errors state = [] -> classification state = None ->
   decision_router state = "error_handler") /\
  (forall c, errors state = [] -> classification state = Some c ->
     (category c = JStr "none" -> decision_router state = "drop") /\
     (category c <> JStr "none" ->
      PrimFloat.ltb (confidence c) CONFIDENCE_THRESHOLD = true ->
      decision_router state = "drop") /\
     (category c <> JStr "none" ->
      PrimFloat.ltb (confidence c) CONFIDENCE_THRESHOLD = false ->
      decision_router state = "score") /\
     (category c <> JStr "none" -> confidence c = CONFIDENCE_THRESHOLD ->
      decision_router state = "score")) /\
  @CONFIDENCE_THRESHOLD default_settings = 0x1.6666666666666p-1%float.
Proof.
  unfold decision_router. split; [| split; [| split; [| reflexivity]]].
  - intros He. apply truthy_spec in He. now rewrite He.
  - intros -> ->. reflexivity.
  - intros c -> ->. cbn [truthy]. repeat apply conj.
    + intros Hc. apply py_eq_str_spec in Hc. now rewrite Hc.
    + intros Hc Hlt. apply py_eq_str_false in Hc. now rewrite Hc, Hlt.
    + intros Hc Hlt. apply py_eq_str_false in Hc. now rewrite Hc, Hlt.
    + intros Hc Heq. apply py_eq_str_false in Hc.
      now rewrite Hc, Heq, float_ltb_irrefl.
Qed.

(** C3.  Without accumulated errors and with a scoring result, the final
    router answers [normalize] exactly when the score reaches the
    threshold (inclusive) or the recommended next step is
    ["reach_out_now"], and [drop] otherwise; with errors or without a
    scoring result it answers [error_handler].  The default threshold
    is 50. *)
Theorem final_decision_router_rule (state : EvaluatorState) :
  (errors state <> [] -> final_decision_router state = "error_handler") /\
  (errors state = [] -> scoring state = None ->
   final_decision_router state = "error_handler") /\
  (forall sc, errors state = [] -> scoring state = Some sc ->
     ((SCORE_THRESHOLD <= opportunity_score sc)%Z \/
      recommended_next_step sc = JStr "reach_out_now" ->
      final_decision_router state = "normalize") /\
     (~ ((SCORE_THRESHOLD <= opportunity_score sc)%Z \/
         recommended_next_step sc = JStr "reach_out_now") ->
      final_decision_router state = "drop")) /\
  @SCORE_THRESHOLD default_settings = 50%Z.
Proof.
  unfold final_decision_router. split; [| split; [| split; [| reflexivity]]].
  - intros He. apply truthy_spec in He. now rewrite He.
  - intros -> ->. reflexivity.
  - intros sc -> ->. cbn [truthy]. split; [intros [Hge | Hstep] | intros Hno].
    + apply Z.leb_le in Hge. now rewrite Hge.
    + apply py_eq_str_spec in Hstep. rewrite Hstep. now rewrite orb_true_r.
    + destruct (SCORE_THRESHOLD <=? opportunity_score sc)%Z eqn:Hge.
      * exfalso. apply Hno. left. now apply Z.leb_le.
      * destruct (py_eq_str (recommended_next_step sc) "reach_out_now") eqn:Hstep.
        -- exfalso. apply Hno. right. now apply py_eq_str_spec.
        -- reflexivity.
Qed.
End Routers.

Lemma decision_router_precedence_witness :
  @decision_router default_settings
    (routed_state [] (Some (classified (JStr "pilot_evaluation")
                              0x1.6666666666666p-1%float)) None) = "score" /\
  @decision_router default_settings
    (routed_state [] (Some (classified (JStr "none") conf_095)) None) = "drop" /\
  @decision_router default_settings
    (routed_state [] (Some (classified (JStr "pilot_evaluation")
                              0x1.3333333333333p-1%float)) None) = "drop" /\
  @decision_router default_settings
    (routed_state ["classify_node: Request timed out."]
       (Some (classified (JStr "pilot_evaluation") conf_095)) None) = "error_handler" /\
  @decision_router default_settings (routed_state [] None None) = "error_handler".
Proof.
  repeat apply conj.
  - destruct (@decision_router_precedence default_settings
                (routed_state [] (Some (classified (JStr "pilot_evaluation")
                                          0x1.6666666666666p-1%float)) None))
      as (_ & _ & Hc & _).
    destruct (Hc _ eq_refl eq_refl) as (_ & _ & _ & Heq).
    apply Heq; [discriminate | reflexivity].
  - destruct (@decision_router_precedence default_settings
                (routed_state [] (Some (classified (JStr "none") conf_095)) None))
      as (_ & _ & Hc & _).
    destruct (Hc _ eq_refl eq_refl) as (Hnone & _).
    apply Hnone; reflexivity.
  - destruct (@decision_router_precedence default_settings
                (routed_state [] (Some (classified (JStr "pilot_evaluation")
                                          0x1.3333333333333p-1%float)) None))
      as (_ & _ & Hc & _).
    destruct (Hc _ eq_refl eq_refl) as (_ & Hlow & _).
    apply Hlow; [discriminate | reflexivity].
  - destruct (@decision_router_precedence default_settings
                (routed_state ["classify_node: Request timed out."]
                   (Some (classified (JStr "pilot_evaluation") conf_095)) None))
      as (Herr & _).
    apply Herr; discriminate.
  - destruct (@decision_router_precedence default_settings (routed_state [] None None))
      as (_ & Hmiss & _).
    apply Hmiss; reflexivity.
Defined.

Lemma final_decision_router_rule_witness :
  @final_decision_router default_settings
    (routed_state [] None (Some (scored 50 (JStr "monitor")))) = "normalize" /\
  @final_decision_router default_settings
    (routed_state [] None (Some (scored 10 (JStr "reach_out_now")))) = "normalize" /\
  @final_decision_router default_settings
    (routed_state [] None (Some (scored 49 (JStr "research_more")))) = "drop" /\
  @final_decision_router default_settings
    (routed_state ["score_node: 'summary'"] None (Some (scored 90 (JStr "monitor"))))
    = "error_handler" /\
  @final_decision_router default_settings (routed_state [] None None) = "error_handler".
Proof.
  repeat apply conj.
  - destruct (@final_decision_router_rule default_settings
                (routed_state [] None (Some (scored 50 (JStr "monitor")))))
      as (_ & _ & Hs & _).
    destruct (Hs _ eq_refl eq_refl) as (Hyes & _).
    apply Hyes. left. vm_compute. discriminate.
  - destruct (@final_decision_router_rule default_settings
                (routed_state [] None (Some (scored 10 (JStr "reach_out_now")))))
      as (_ & _ & Hs & _).
    destruct (Hs _ eq_refl eq_refl) as (Hyes & _).
    apply Hyes. right. reflexivity.
  - destruct (@final_decision_router_rule default_settings
                (routed_state [] None (Some (scored 49 (JStr "research_more")))))
      as (_ & _ & Hs & _).
    destruct (Hs _ eq_refl eq_refl) as (_ & Hno).
    apply Hno. intros [Hge | Hstep]; [vm_compute in Hge; congruence | discriminate].
  - destruct (@final_decision_router_rule default_settings
                (routed_state ["score_node: 'summary'"] None
                   (Some (scored 90 (JStr "monitor")))))
      as (Herr & _).
    apply Herr; discriminate.
  - destruct (@final_decision_router_rule default_settings (routed_state [] None None))
      as (_ & Hmiss & _).
    apply Hmiss; reflexivity.
Defined.

(* ===================================================================== *)
(** ** The stage functions *)
(* ===================================================================== *)

(** Case analysis on the next fallible step of a node body. *)
Ltac next_step :=
  match goal with
  | |- context [match ?r with Returns _ => _ | Raises _ => _ end] =>
      destruct r eqn:?; cbn [res_bind fst snd]
  | |- context [match ?p with (_, _) => _ end] =>
      destruct p as [[?|?] ?] eqn:?; cbn [res_bind fst snd]
  end.

Ltac open_monad :=
  unfold try_except, bind, lift, ret, raise, _load_prompt.

Section Stages.
Context `{rt : Runtime} `{cfg : Settings}.

(** [classify_node] is the model call followed by the pure reading of the
    answer, with every exception of either turned into an error entry. *)
Lemma classify_node_factor (state : EvaluatorState) (w : World) :
  classify_node state w =
  match classify_request (chunk state) w with
  | (Raises e, w') =>
      (Returns (errors_update (errors state ++ ["classify_node: " +:+ str e])), w')
  | (Returns result, w') =>
      match parse_classification result with
      | Returns c => (Returns (classification_update c), w')
      | Raises e =>
          (Returns (errors_update (errors state ++ ["classify_node: " +:+ str e])), w')
      end
  end.
Proof.
  unfold classify_node, classify_request, parse_classification. open_monad.
  destruct (read_text "classify_prompt.txt" w) as [[template|e] w1]; [|reflexivity].
  destruct (format_classify template (text (chunk state))) as [prompt|e]; [|reflexivity].
  destruct (invoke_llm_json prompt w1) as [[result|e] w2]; [|reflexivity].
  repeat (next_step; try reflexivity).
Qed.

(** The same for [score_node], which first reads the classification. *)
Lemma score_node_factor (state : EvaluatorState) (c : ClassificationResult) (w : World) :
  classification state = Some c ->
  score_node state w =
  match score_request (chunk state) c w with
  | (Raises e, w') =>
      (Returns (errors_update (errors state ++ ["score_node: " +:+ str e])), w')
  | (Returns result, w') =>
      match parse_scoring result with
      | Returns sc => (Returns (scoring_update sc), w')
      | Raises e =>
          (Returns (errors_update (errors state ++ ["score_node: " +:+ str e])), w')
      end
  end.
Proof.
  intros Hc.
  unfold score_node, score_request, parse_scoring. open_monad. rewrite Hc.
  destruct (read_text "scoring_prompt.txt" w) as [[template|e] w1]; [|reflexivity].
  match goal with
  | |- context [format_scoring ?a ?b ?c ?d ?e ?f ?g] =>
      destruct (format_scoring a b c d e f g) as [prompt|e']; [|reflexivity]
  end.
  destruct (invoke_llm_json prompt w1) as [[result|e] w2]; [|reflexivity].
  repeat (next_step; try reflexivity).
Qed.

(** Both model-calling nodes always return, and what they return is
    either their result or one more error entry; neither writes [keep]. *)
Lemma classify_node_shape (state : EvaluatorState) (w : World) :
  exists w',
    (exists c, classify_node state w = (Returns (classification_update c), w')) \/
    (exists msg, classify_node state w
                 = (Returns (errors_update (errors state ++ ["classify_node: " +:+ msg])), w')).
Proof.
  rewrite classify_node_factor.
  destruct (classify_request (chunk state) w) as [[result|e] w']; exists w'.
  - destruct (parse_classification result); eauto.
  - eauto.
Qed.

Lemma score_node_shape (state : EvaluatorState) (w : World) :
  exists w',
    (exists sc, score_node state w = (Returns (scoring_update sc), w')) \/
    (exists msg, score_node state w
                 = (Returns (errors_update (errors state ++ ["score_node: " +:+ msg])), w')).
Proof.
  destruct (classification state) as [c|] eqn:Hc.
  - rewrite (score_node_factor state c w Hc).
    destruct (score_request (chunk state) c w) as [[result|e] w']; exists w'.
    + destruct (parse_scoring result); eauto.
    + eauto.
  - exists w. right. exists (str (KeyError "classification")).
    unfold score_node. open_monad. rewrite Hc. reflexivity.
Qed.
End Stages.

(* ===================================================================== *)
(** ** One traversal of the graph *)
(* ===================================================================== *)

Arguments run : simpl never.

Section Traversal.
Context `{rt : Runtime} `{cfg : Settings}.

(** One step of [run], spelled out. *)
Lemma run_S (k : nat) (n : node) (state : EvaluatorState) (w : World) :
  run (S k) n state w =
  match node_function n state w with
  | (Returns update, w1) =>
      match next_node n (merge state update) with
      | Returns None => (Returns (merge state update, [n]), w1)
      | Returns (Some n') =>
          match run k n' (merge state update) w1 with
          | (Returns rest, w2) => (Returns (fst rest, n :: snd rest), w2)
          | (Raises e, w2) => (Raises e, w2)
          end
      | Raises e => (Raises e, w1)
      end
  | (Raises e, w1) => (Raises e, w1)
  end.
Proof.
  unfold run; fold run. open_monad.
  destruct (node_function n state w) as [[update|e] w1]; [|reflexivity].
  destruct (next_node n (merge state update)) as [[n'|]|e]; reflexivity.
Qed.

Lemma run_drop (k : nat) (state : EvaluatorState) (w : World) :
  run (S k) Drop state w = (Returns (merge state (keep_update false), [Drop]), w).
Proof. rewrite run_S. reflexivity. Qed.

Lemma run_error_handler (k : nat) (state : EvaluatorState) (w : World) :
  run (S k) ErrorHandler state w
  = (Returns (merge state (keep_update false), [ErrorHandler]), w).
Proof. rewrite run_S. reflexivity. Qed.

Lemma run_normalize (k : nat) (state : EvaluatorState) (w : World) c sc :
  classification state = Some c ->
  scoring state = Some sc ->
  exists r,
    SignalRecord.evidence_snippet r = evidence_snippet c /\
    run (S k) Normalize state w = (Returns (merge state (signal_update r true), [Normalize]), w).
Proof.
  intros Hc Hsc. rewrite run_S. cbn [node_function].
  unfold normalize_node. open_monad. rewrite Hc, Hsc.
  eexists. split; [| reflexivity]. reflexivity.
Qed.

(** The two conditional edges, resolved. *)
Lemma next_after_validate (state : EvaluatorState) :
  next_node ValidateEvidence state =
  Returns (Some
    (if truthy (errors state) then ErrorHandler
     else match classification state with
          | None => ErrorHandler
          | Some c =>
              if py_eq_str (category c) "none" then Drop
              else if PrimFloat.ltb (confidence c) CONFIDENCE_THRESHOLD then Drop
                   else Score
          end)).
Proof.
  unfold next_node, out_edge, decision_router.
  destruct (truthy (errors state)); [reflexivity|].
  destruct (classification state) as [c|]; [|reflexivity].
  destruct (py_eq_str (category c) "none"); [reflexivity|].
  destruct (PrimFloat.ltb (confidence c) CONFIDENCE_THRESHOLD); reflexivity.
Qed.

Lemma next_after_score (state : EvaluatorState) :
  next_node Score state =
  Returns (Some
    (if truthy (errors state) then ErrorHandler
     else match scoring state with
          | None => ErrorHandler
          | Some sc =>
              if (SCORE_THRESHOLD <=? opportunity_score sc)%Z
                 || py_eq_str (recommended_next_step sc) "reach_out_now"
              then Normalize
              else Drop
          end)).
Proof.
  unfold next_node, out_edge, final_decision_router.
  destruct (truthy (errors state)); [reflexivity|].
  destruct (scoring state) as [sc|]; [|reflexivity].
  destruct ((SCORE_THRESHOLD <=? opportunity_score sc)%Z
            || py_eq_str (recommended_next_step sc) "reach_out_now"); reflexivity.
Qed.

Lemma truthy_app {A} (l : list A) (x : A) : truthy (l ++ [x]) = true.
Proof. destruct l; reflexivity. Qed.

Lemma app_singleton_not_nil {A} (l : list A) (x : A) : (l ++ [x])%list <> [].
Proof. destruct l; discriminate. Qed.

(** The score leg: from a validated state without errors, the graph ends
    in [normalize], [drop] or [error_handler] after two more nodes. *)
Lemma run_score_leg (k : nat) (state : EvaluatorState) (w : World) c s :
  classification state = Some c ->
  errors state = [] ->
  keep state = false ->
  signal_record state = None ->
  category c <> JStr "none" ->
  evidence_snippet c = JStr s ->
  is_substring s (text (chunk state)) ->
  forall written,
  exists final stages w',
    run (S (S k)) Score state w = (Returns (final, stages), w') /\
    traversal (chunk state) written
      (Returns (final, Classify :: ValidateEvidence :: stages)).
Proof.
  intros Hc He Hk Hsig Hcat Hsn Hsub written.
  rewrite run_S. cbn [node_function].
  destruct (score_node_shape state w) as (w1 & [(sc & Hrun) | (msg & Hrun)]);
    rewrite Hrun, next_after_score.
  - cbn [merge scoring_update upd_errors upd_scoring errors scoring].
    rewrite He. cbn [truthy].
    destruct ((SCORE_THRESHOLD <=? opportunity_score sc)%Z
              || py_eq_str (recommended_next_step sc) "reach_out_now").
    + edestruct (run_normalize k) as (r & Hr & Hn);
        [| | rewrite Hn]; [exact Hc | reflexivity |].
      do 3 eexists. split; [reflexivity|]. cbn [fst snd].
      eapply traversal_normalized with (c := c) (s := s); cbn; eauto.
      congruence.
    + rewrite run_drop.
      do 3 eexists. split; [reflexivity|]. cbn [fst snd].
      apply traversal_dropped; cbn; auto.
  - cbn [merge errors_update upd_errors errors]. rewrite truthy_app.
    rewrite run_error_handler.
    do 3 eexists. split; [reflexivity|]. cbn [fst snd].
    apply traversal_errored; cbn; auto using app_singleton_not_nil.
Qed.
(** A failed classification ends in [error_handler] after three nodes. *)
Lemma run_after_classify_error (chunk0 : ChunkData) (w w1 : World) (errs : list string) :
  errs <> [] ->
  classify_node (initial_state chunk0) w = (Returns (errors_update errs), w1) ->
  evaluate_chunk_trace chunk0 w =
  (Returns ({| chunk := chunk0; classification := None; scoring := None;
               errors := errs ++ ["No classification to validate"];
               keep := false; signal_record := None |},
            [Classify; ValidateEvidence; ErrorHandler]), w1).
Proof.
  intros Hne Hrun.
  unfold evaluate_chunk_trace, invoke, recursion_limit, entry_point.
  rewrite run_S. cbn [node_function]. rewrite Hrun.
  unfold next_node at 1. cbn [out_edge].
  rewrite run_S. cbn [node_function].
  unfold evidence_validation_node. open_monad.
  cbn [merge errors_update initial_state upd_classification classification
       upd_errors errors].
  rewrite next_after_validate.
  cbn [merge errors_keep_update upd_errors errors]. rewrite truthy_app.
  rewrite run_error_handler. reflexivity.
Qed.

(** Every traversal ends in one of the four ways of [traversal]. *)
Lemma evaluate_chunk_traversal (chunk0 : ChunkData) (w : World) :
  traversal chunk0
    (fun c => exists w1,
       classify_node (initial_state chunk0) w = (Returns (classification_update c), w1))
    (fst (evaluate_chunk_trace chunk0 w)).
Proof.
  destruct (classify_node_shape (initial_state chunk0) w)
    as (w1 & [(c & Hrun) | (msg & Hrun)]).
  - unfold evaluate_chunk_trace, invoke, recursion_limit, entry_point.
    rewrite run_S. cbn [node_function]. rewrite Hrun.
    unfold next_node at 1. cbn [out_edge].
    rewrite run_S. cbn [node_function].
    unfold evidence_validation_node. open_monad.
    cbn [merge classification_update initial_state upd_classification classification
         chunk].
    destruct (evidence_snippet c) as [| | | |s| |] eqn:Hsn; cbn [py_in_str fst];
      try (apply traversal_raised with (c := c); [eauto | intros; congruence]).
    destruct (str_contains (text chunk0) s) eqn:Hfound; cbn [negb].
    + apply str_contains_spec in Hfound.
      rewrite next_after_validate.
      cbn [merge no_update classification_update initial_state upd_classification
           upd_errors classification errors truthy].
      destruct (py_eq_str (category c) "none") eqn:Hcat.
      * rewrite run_drop. apply traversal_dropped; cbn; auto.
      * apply py_eq_str_false in Hcat.
        destruct (PrimFloat.ltb (confidence c) CONFIDENCE_THRESHOLD).
        -- rewrite run_drop. apply traversal_dropped; cbn; auto.
        -- edestruct (run_score_leg 21) as (final & stages & w' & Hleg & Htr);
             [| | | | exact Hcat | exact Hsn | | rewrite Hleg; exact Htr];
             first [reflexivity | exact Hfound].
    + rewrite next_after_validate.
      cbn [merge errors_keep_update upd_errors errors]. rewrite truthy_app.
      rewrite run_error_handler.
      apply traversal_errored; cbn; auto using app_singleton_not_nil.
  - erewrite run_after_classify_error; [| | exact Hrun].
    + apply traversal_errored; cbn; auto using app_singleton_not_nil.
    + apply app_singleton_not_nil.
Qed.
End Traversal.

(* ===================================================================== *)
(** ** Properties of a whole traversal *)
(* ===================================================================== *)

(** Membership of a node in an explicit list of stages. *)
Ltac stage_membership :=
  rewrite ?elem_of_cons, ?elem_of_nil in *; intuition discriminate.

Section Pipeline.
Context `{rt : Runtime} `{cfg : Settings}.

(** C1.  When a traversal reaches [normalize], the evidence snippet stored
    in the signal record is a string that occurs verbatim (same
    characters, same case) in the chunk's text: what the evidence check
    established still holds for the record handed to export. *)
Theorem normalized_evidence_is_substring
    (chunk0 : ChunkData) (w w' : World) (final : EvaluatorState) (stages : list node) :
  evaluate_chunk_trace chunk0 w = (Returns (final, stages), w') ->
  Normalize ∈ stages ->
  exists r s,
    signal_record final = Some r /\
    SignalRecord.evidence_snippet r = JStr s /\
    is_substring s (text chunk0) /\
    str_contains (text (chunk final)) s = true.
Proof.
  intros Hrun Hnorm.
  pose proof (evaluate_chunk_traversal chunk0 w) as Htr. rewrite Hrun in Htr.
  inversion Htr as [f c sc r s Hch He Hk Hc Hsc Hsig Hcat Hsn Hrs Hsub
                   | f st [-> | ->] | f st [-> | ->] |]; subst.
  - exists r, s. repeat split; auto. now apply str_contains_spec.
  - stage_membership.
  - stage_membership.
  - stage_membership.
  - stage_membership.
Qed.

(** C4.  In the final state of a traversal, [keep] is true exactly when a
    signal record is present, and then the classification is present
    with a category other than ["none"]. *)
Theorem keep_iff_signal_record
    (chunk0 : ChunkData) (w w' : World) (final : EvaluatorState) (stages : list node) :
  evaluate_chunk_trace chunk0 w = (Returns (final, stages), w') ->
  (keep final = true <-> is_Some (signal_record final)) /\
  (keep final = true ->
   exists c, classification final = Some c /\ category c <> JStr "none").
Proof.
  intros Hrun.
  pose proof (evaluate_chunk_traversal chunk0 w) as Htr. rewrite Hrun in Htr.
  inversion Htr as [f c sc r s Hch He Hk Hc Hsc Hsig Hcat Hsn Hrs Hsub
                   | f st Hst Hch He Hk Hsig | f st Hst Hch He Hk Hsig |]; subst.
  - rewrite Hk, Hsig. split; [split; eauto | eauto].
  - rewrite Hk, Hsig. split; [split; [discriminate | intros [? [=]]] | discriminate].
  - rewrite Hk, Hsig. split; [split; [discriminate | intros [? [=]]] | discriminate].
Qed.

(** C5.  A final state with a non-empty error list was produced by
    [error_handler]: [normalize] did not run, [keep] is false and there
    is no signal record. *)
Theorem errors_end_in_error_handler
    (chunk0 : ChunkData) (w w' : World) (final : EvaluatorState) (stages : list node) :
  evaluate_chunk_trace chunk0 w = (Returns (final, stages), w') ->
  errors final <> [] ->
  last stages = Some ErrorHandler /\
  (Normalize ∉ stages) /\
  keep final = false /\
  signal_record final = None.
Proof.
  intros Hrun Herr.
  pose proof (evaluate_chunk_traversal chunk0 w) as Htr. rewrite Hrun in Htr.
  inversion Htr as [f c sc r s Hch He Hk Hc Hsc Hsig Hcat Hsn Hrs Hsub
                   | f st Hst Hch He Hk Hsig | f st Hst Hch He Hk Hsig |]; subst.
  - congruence.
  - congruence.
  - destruct Hst as [-> | ->]; repeat split; auto; stage_membership.
Qed.

(** The stages a traversal that returns has executed: at most four, none
    twice, the last one a node with an edge to [END]. *)
Lemma traversal_bounds (chunk0 : ChunkData) written
    (final : EvaluatorState) (stages : list node) :
  traversal chunk0 written (Returns (final, stages)) ->
  length stages <= 4 /\ NoDup stages /\
  exists t, last stages = Some t /\ terminal t = true.
Proof.
  intros Htr.
  inversion Htr as [f c sc r s Hch He Hk Hc Hsc Hsig Hcat Hsn Hrs Hsub
                   | f st Hst Hch He Hk Hsig | f st Hst Hch He Hk Hsig |]; subst;
    try destruct Hst as [-> | ->];
    (split; [simpl; lia | split; [| eexists; split; reflexivity]]);
    repeat (apply NoDup_cons; split; [stage_membership |]); apply NoDup_nil; exact I.
Qed.

(** The graph has no cycle: every edge goes to a node of smaller rank. *)
Lemma edges_descend (n m : node) :
  m ∈ successors n ->
  let rank (x : node) : nat :=
    match x with
    | Classify => 3 | ValidateEvidence => 2 | Score => 1
    | Normalize | Drop | ErrorHandler => 0
    end in
  rank m < rank n.
Proof.
  intros Hm rank.
  destruct n; vm_compute in Hm;
    repeat (apply elem_of_cons in Hm as [-> | Hm]; [cbn; lia |]);
    apply elem_of_nil in Hm; contradiction.
Qed.

(** A traversal that does not return was left by the evidence check:
    [classify_node] had stored a snippet that is not a string. *)
Lemma traversal_raises_only_in_validation (chunk0 : ChunkData) (w : World) (e : exception) :
  fst (evaluate_chunk_trace chunk0 w) = Raises e ->
  exists c w1 msg,
    classify_node (initial_state chunk0) w = (Returns (classification_update c), w1) /\
    (forall s, evidence_snippet c <> JStr s) /\
    e = TypeError msg.
Proof.
  intros Hrun.
  pose proof (evaluate_chunk_traversal chunk0 w) as Htr. rewrite Hrun in Htr.
  inversion Htr as [| | | c msg [w1 Hw] Hns]; subst. eauto 6.
Qed.

(** Whenever the stored snippet is a string, or nothing was stored, the
    traversal returns: at most four stages, none twice, the last one
    terminal. *)
Lemma traversal_returns_on_str_snippet (chunk0 : ChunkData) (w : World) :
  (forall c w1,
     classify_node (initial_state chunk0) w = (Returns (classification_update c), w1) ->
     exists s, evidence_snippet c = JStr s) ->
  exists final stages w',
    evaluate_chunk_trace chunk0 w = (Returns (final, stages), w') /\
    length stages <= 4 /\ NoDup stages /\
    exists t, last stages = Some t /\ terminal t = true.
Proof.
  intros Hstr.
  pose proof (evaluate_chunk_traversal chunk0 w) as Htr.
  destruct (evaluate_chunk_trace chunk0 w) as [[[final stages]|e] w'] eqn:Hrun;
    cbn [fst] in Htr.
  - exists final, stages, w'. split; [reflexivity |].
    eapply traversal_bounds, Htr.
  - exfalso. inversion Htr as [| | | c msg [w1 Hw] Hns]; subst.
    destruct (Hstr c w1 Hw) as [s Hs]. exact (Hns s Hs).
Qed.
End Pipeline.

(** C9.  A model answer with all four fields and a [null] evidence snippet
    passes [classify_node]; the evidence check then raises [TypeError],
    the exception leaves the graph, and none of [normalize], [drop],
    [error_handler] runs. *)
Theorem null_snippet_leaves_graph :
  @evaluate_chunk_trace scripted default_settings sample_chunk
    [Returns null_snippet_classification]
  = (Raises (TypeError "'in <string>' requires string as left operand, not NoneType"),
     []).
Proof. vm_compute. reflexivity. Qed.

(* ===================================================================== *)
(** ** Properties of the stages *)
(* ===================================================================== *)

Section StageProperties.
Context `{rt : Runtime} `{cfg : Settings}.

Lemma merge_no_update (state : EvaluatorState) : merge state no_update = state.
Proof. destruct state; reflexivity. Qed.

(** C10.  When the snippet is a string that occurs verbatim in the chunk
    text, the evidence check returns the empty update, and merging it
    leaves every field of the state as it was. *)
Theorem validation_pass_changes_nothing
    (state : EvaluatorState) (w : World) (c : ClassificationResult) (s : string) :
  classification state = Some c ->
  evidence_snippet c = JStr s ->
  is_substring s (text (chunk state)) ->
  evidence_validation_node state w = (Returns no_update, w) /\
  merge state no_update = state.
Proof.
  intros Hc Hsn Hsub. split; [| apply merge_no_update].
  apply str_contains_spec in Hsub.
  unfold evidence_validation_node. open_monad.
  rewrite Hc, Hsn. cbn [py_in_str]. rewrite Hsub. reflexivity.
Qed.

(** C6, as the code has it.  When the classification is absent, or the
    snippet is a string that does not occur in the chunk text, the
    evidence check appends one message to the error list and writes
    [keep = False] in the same update; it writes nothing else, and the
    router that follows sends the merged state to [error_handler]. *)
Theorem validation_failure_update (state : EvaluatorState) (w : World) :
  (classification state = None ->
   evidence_validation_node state w
   = (Returns (errors_keep_update
                 (errors state ++ ["No classification to validate"]) false), w)) /\
  (forall c s,
     classification state = Some c ->
     evidence_snippet c = JStr s ->
     ~ is_substring s (text (chunk state)) ->
     evidence_validation_node state w
     = (Returns (errors_keep_update
                   (errors state ++ ["Evidence snippet not found verbatim in chunk text"])
                   false), w)) /\
  (forall msg,
     decision_router (merge state (errors_keep_update (errors state ++ [msg]) false))
     = "error_handler").
Proof.
  repeat apply conj.
  - intros Hc. unfold evidence_validation_node. now rewrite Hc.
  - intros c s Hc Hsn Hsub.
    unfold evidence_validation_node. open_monad.
    rewrite Hc, Hsn. cbn [py_in_str].
    destruct (str_contains (text (chunk state)) s) eqn:Hfound; [| reflexivity].
    exfalso. apply Hsub. now apply str_contains_spec.
  - intros msg. unfold decision_router.
    cbn [merge errors_keep_update upd_errors errors]. now rewrite truthy_app.
Qed.
End StageProperties.

(** C6, as the specification words it, fails: on a state without a
    classification the evidence check does write [keep]. *)
Lemma validation_writes_keep :
  ~ (forall (rt : Runtime) (state : EvaluatorState) (w w' : World) (u : Update),
       classification state = None \/
       (exists c s, classification state = Some c /\ evidence_snippet c = JStr s /\
                    ~ is_substring s (text (chunk state))) ->
       evidence_validation_node state w = (Returns u, w') ->
       (exists msg, upd_errors u = Some (errors state ++ [msg])%list) /\
       upd_keep u = None).
Proof.
  intros Hclaim.
  destruct (Hclaim scripted (initial_state sample_chunk) [] []
              (errors_keep_update ["No classification to validate"] false))
    as [_ Hkeep].
  - left. reflexivity.
  - reflexivity.
  - discriminate Hkeep.
Qed.

(* ===================================================================== *)
(** ** Reading the model's answers *)
(* ===================================================================== *)

Section Answers.
Context `{rt : Runtime} `{cfg : Settings}.

Lemma py_in_obj (m : gmap string json) (key : string) :
  py_in key (JObj m) = Returns (match m !! key with Some _ => true | None => false end).
Proof. cbn [py_in]. destruct (m !! key); reflexivity. Qed.

(** The loop over the required fields stops at the first missing one. *)
Lemma check_required_missing (m : gmap string json) (fields : list string) (field : string) :
  field ∈ fields ->
  m !! field = None ->
  exists missing,
    missing ∈ fields /\ m !! missing = None /\
    check_required_fields (JObj m) fields
    = Raises (ValueError ("Missing required field in classification: " +:+ missing)).
Proof.
  induction fields as [|f rest IH]; intros Hin Hnone.
  - apply elem_of_nil in Hin. contradiction.
  - cbn [check_required_fields]. rewrite py_in_obj.
    destruct (m !! f) eqn:Hf.
    + apply elem_of_cons in Hin as [-> | Hin]; [congruence |].
      destruct (IH Hin Hnone) as (missing & Hm & Hmn & Hchk).
      exists missing. repeat split; auto. now apply list_elem_of_further.
    + exists f. repeat split; auto. apply list_elem_of_here.
Qed.

Lemma check_required_present (m : gmap string json) (fields : list string) :
  (forall field, field ∈ fields -> is_Some (m !! field)) ->
  check_required_fields (JObj m) fields = Returns tt.
Proof.
  induction fields as [|f rest IH]; intros Hall; [reflexivity |].
  cbn [check_required_fields]. rewrite py_in_obj.
  destruct (Hall f (list_elem_of_here _ _)) as [v ->].
  apply IH. intros field Hin. apply Hall. now apply list_elem_of_further.
Qed.





(** What a successful reading of a classification answer implies about
    it: it is an object holding the four fields.  A list or a string
    that contains the four names passes the membership tests and fails
    at the first subscript. *)
Lemma parse_classification_returns (v : json) (c : ClassificationResult) :
  parse_classification v = Returns c ->
  exists m r_confidence,
    v = JObj m /\
    m !! "category" = Some (category c) /\
    m !! "confidence" = Some r_confidence /\
    py_float float_of_str r_confidence = Returns (confidence c) /\
    m !! "evidence_snippet" = Some (evidence_snippet c) /\
    m !! "rationale" = Some (rationale c).
Proof.
  unfold parse_classification. intros Hp.
  destruct (check_required_fields v required_fields); cbn [res_bind] in Hp;
    [| discriminate].
  destruct v; cbn [py_getitem res_bind] in Hp; try discriminate.
  exists m.
  repeat match type of Hp with
         | res_bind (match m !! ?k with _ => _ end) _ = _ =>
             destruct (m !! k) eqn:?; cbn [res_bind] in Hp; [| discriminate]
         | res_bind ?r _ = _ => destruct r eqn:?; cbn [res_bind] in Hp; [| discriminate]
         end.
  injection Hp as <-. cbn. eauto 10.
Qed.
End Answers.

(* ===================================================================== *)
(** ** The two model-calling stages contain their failures *)
(* ===================================================================== *)

Section Containment.
Context `{rt : Runtime} `{cfg : Settings}.

(** C7.  [classify_node] never raises: it returns the classification or
    the error list with one more entry, and nothing else.  It returns
    the error entry when the model call fails and for every answer that
    lacks one of [category], [confidence], [evidence_snippet],
    [rationale], an answer that is no object ([null], a list, a string,
    a number) lacking all of them; the traversal then ends in
    [error_handler], not in [drop].  When the answer has the four fields
    and the confidence converts to a float, the node returns the
    classification; and a classification is returned only from such an
    answer. *)
Theorem classify_node_contains_failures (state : EvaluatorState) (w : World) :
  (exists w',
     (exists c, classify_node state w = (Returns (classification_update c), w')) \/
     (exists msg,
        classify_node state w
        = (Returns (errors_update (errors state ++ ["classify_node: " +:+ msg])), w'))) /\
  (forall e w',
     classify_request (chunk state) w = (Raises e, w') ->
     classify_node state w
     = (Returns (errors_update (errors state ++ ["classify_node: " +:+ str e])), w')) /\
  (forall m w' field,
     classify_request (chunk state) w = (Returns (JObj m), w') ->
     field ∈ required_fields ->
     m !! field = None ->
     exists missing,
       missing ∈ required_fields /\ m !! missing = None /\
       classify_node state w
       = (Returns (errors_update
                     (errors state ++
                      ["classify_node: "
                       +:+ ("Missing required field in classification: " +:+ missing)])),
          w')) /\
  (forall v w',
     classify_request (chunk state) w = (Returns v, w') ->
     (forall m, v = JObj m -> exists field, field ∈ required_fields /\ m !! field = None) ->
     exists msg,
       classify_node state w
       = (Returns (errors_update (errors state ++ ["classify_node: " +:+ msg])), w')) /\
  (forall chunk0 w0,
     (exists e w1, classify_request chunk0 w0 = (Raises e, w1)) \/
     (exists v w1,
        classify_request chunk0 w0 = (Returns v, w1) /\
        forall m, v = JObj m ->
                  exists field, field ∈ required_fields /\ m !! field = None) ->
     exists final w1,
       evaluate_chunk_trace chunk0 w0
       = (Returns (final, [Classify; ValidateEvidence; ErrorHandler]), w1) /\
       classification final = None /\
       errors final <> [] /\
       keep final = false /\
       signal_record final = None) /\
  (forall m w' r_category r_confidence r_evidence r_rationale f_confidence,
     classify_request (chunk state) w = (Returns (JObj m), w') ->
     m !! "category" = Some r_category ->
     m !! "confidence" = Some r_confidence ->
     m !! "evidence_snippet" = Some r_evidence ->
     m !! "rationale" = Some r_rationale ->
     py_float float_of_str r_confidence = Returns f_confidence ->
     classify_node state w
     = (Returns (classification_update
                   {| category := r_category; confidence := f_confidence;
                      evidence_snippet := r_evidence; rationale := r_rationale |}),
        w')) /\
  (forall c w',
     classify_node state w = (Returns (classification_update c), w') ->
     exists m r_confidence,
       classify_request (chunk state) w = (Returns (JObj m), w') /\
       m !! "category" = Some (category c) /\
       m !! "confidence" = Some r_confidence /\
       py_float float_of_str r_confidence = Returns (confidence c) /\
       m !! "evidence_snippet" = Some (evidence_snippet c) /\
       m !! "rationale" = Some (rationale c)).
Proof.
  assert (Hfail : forall st w0 e w1,
             classify_request (chunk st) w0 = (Raises e, w1) ->
             classify_node st w0
             = (Returns (errors_update (errors st ++ ["classify_node: " +:+ str e])), w1)).
  { intros st w0 e w1 Hreq. now rewrite classify_node_factor, Hreq. }
  assert (Hmiss : forall st w0 m w1 field,
             classify_request (chunk st) w0 = (Returns (JObj m), w1) ->
             field ∈ required_fields ->
             m !! field = None ->
             exists missing,
               missing ∈ required_fields /\ m !! missing = None /\
               classify_node st w0
               = (Returns (errors_update
                             (errors st ++
                              ["classify_node: "
                               +:+ ("Missing required field in classification: "
                                    +:+ missing)])),
                  w1)).
  { intros st w0 m w1 field Hreq Hin Hnone.
    destruct (check_required_missing m required_fields field Hin Hnone)
      as (missing & Hm & Hmn & Hchk).
    exists missing. repeat split; auto.
    rewrite classify_node_factor, Hreq. unfold parse_classification.
    rewrite Hchk. reflexivity. }
  assert (Hany : forall st w0 v w1,
             classify_request (chunk st) w0 = (Returns v, w1) ->
             (forall m, v = JObj m ->
                        exists field, field ∈ required_fields /\ m !! field = None) ->
             exists msg,
               classify_node st w0
               = (Returns (errors_update (errors st ++ ["classify_node: " +:+ msg])),
                  w1)).
  { intros st w0 v w1 Hreq Hlacks. rewrite classify_node_factor, Hreq.
    destruct (parse_classification v) as [c|e] eqn:Hp; [| eauto].
    exfalso.
    apply parse_classification_returns
      in Hp as (m & r & -> & Hcat & Hconf & _ & Hev & Hrat).
    destruct (Hlacks m eq_refl) as (field & Hin & Hnone).
    unfold required_fields in Hin. rewrite !elem_of_cons, elem_of_nil in Hin.
    destruct Hin as [-> | [-> | [-> | [-> | []]]]]; congruence. }
  repeat apply conj.
  - apply classify_node_shape.
  - apply Hfail.
  - apply Hmiss.
  - apply Hany.
  - intros chunk0 w0 [(e & w1 & Hreq) | (v & w1 & Hreq & Hlacks)].
    + do 2 eexists. split.
      * apply run_after_classify_error; [| apply (Hfail (initial_state chunk0)), Hreq].
        apply app_singleton_not_nil.
      * cbn. repeat split; auto using app_singleton_not_nil.
    + destruct (Hany (initial_state chunk0) w0 v w1 Hreq Hlacks) as (msg & Hrun).
      do 2 eexists. split.
      * apply run_after_classify_error; [| exact Hrun]. apply app_singleton_not_nil.
      * cbn. repeat split; auto using app_singleton_not_nil.
  - intros m w' r_category r_confidence r_evidence r_rationale f_confidence
           Hreq Hcat Hconf Hev Hrat Hfloat.
    rewrite classify_node_factor, Hreq. unfold parse_classification.
    rewrite check_required_present.
    + cbn [res_bind py_getitem]. rewrite Hcat, Hconf. cbn [res_bind].
      rewrite Hfloat. cbn [res_bind]. rewrite Hev, Hrat. reflexivity.
    + intros field Hin. unfold required_fields in Hin.
      rewrite !elem_of_cons, elem_of_nil in Hin.
      destruct Hin as [-> | [-> | [-> | [-> | []]]]]; eauto.
  - intros c w' Hrun. rewrite classify_node_factor in Hrun.
    destruct (classify_request (chunk state) w) as [[v|e] w1]; [| discriminate].
    destruct (parse_classification v) as [c'|e] eqn:Hp; [| discriminate].
    injection Hrun as -> ->.
    apply parse_classification_returns in Hp as (m & r & -> & H).
    exists m, r. split; [reflexivity | exact H].
Qed.

End Containment.

(* ===================================================================== *)
(** ** The properties at work on the sample chunk *)
(* ===================================================================== *)

Lemma normalized_evidence_is_substring_witness :
  exists final r s,
    @evaluate_chunk_trace scripted default_settings sample_chunk
      [Returns sample_classification; Returns sample_scoring]
    = (Returns (final, [Classify; ValidateEvidence; Score; Normalize]), []) /\
    signal_record final = Some r /\
    SignalRecord.evidence_snippet r = JStr s /\
    is_substring s (text sample_chunk) /\
    str_contains (text (chunk final)) s = true.
Proof.
  eexists.
  assert (Hrun : @evaluate_chunk_trace scripted default_settings sample_chunk
                   [Returns sample_classification; Returns sample_scoring]
                 = (Returns (_, [Classify; ValidateEvidence; Score; Normalize]), []))
    by (vm_compute; reflexivity).
  destruct (@normalized_evidence_is_substring scripted default_settings
              sample_chunk _ _ _ _ Hrun) as (r & s & H).
  - rewrite !elem_of_cons. tauto.
  - exists r, s. split; [exact Hrun | exact H].
Defined.

Lemma keep_iff_signal_record_witness :
  exists final,
    @evaluate_chunk_trace scripted default_settings sample_chunk
      [Returns sample_classification; Returns sample_scoring]
    = (Returns (final, [Classify; ValidateEvidence; Score; Normalize]), []) /\
    (keep final = true <-> is_Some (signal_record final)) /\
    (keep final = true ->
     exists c, classification final = Some c /\ category c <> JStr "none").
Proof.
  eexists.
  assert (Hrun : @evaluate_chunk_trace scripted default_settings sample_chunk
                   [Returns sample_classification; Returns sample_scoring]
                 = (Returns (_, [Classify; ValidateEvidence; Score; Normalize]), []))
    by (vm_compute; reflexivity).
  split; [exact Hrun |].
  exact (@keep_iff_signal_record scripted default_settings sample_chunk _ _ _ _ Hrun).
Defined.

Lemma errors_end_in_error_handler_witness :
  exists final stages,
    @evaluate_chunk_trace scripted default_settings sample_chunk []
    = (Returns (final, stages), []) /\
    errors final = ["classify_node: Request timed out."; "No classification to validate"] /\
    last stages = Some ErrorHandler /\
    (Normalize ∉ stages) /\
    keep final = false /\
    signal_record final = None.
Proof.
  do 2 eexists.
  assert (Hrun : @evaluate_chunk_trace scripted default_settings sample_chunk []
                 = (Returns (_, _), []))
    by (vm_compute; reflexivity).
  split; [exact Hrun |]. split; [reflexivity |].
  apply (@errors_end_in_error_handler scripted default_settings sample_chunk _ _ _ _ Hrun).
  discriminate.
Defined.

Lemma validation_pass_changes_nothing_witness :
  @evidence_validation_node scripted classified_state [] = (Returns no_update, []) /\
  merge classified_state no_update = classified_state.
Proof.
  apply (@validation_pass_changes_nothing scripted classified_state []
           (classified (JStr "pilot_evaluation") conf_082) "literacy curriculum pilot").
  - reflexivity.
  - reflexivity.
  - exists "The Board will evaluate a new ", " in Q1 2026.". reflexivity.
Defined.

Lemma validation_failure_update_witness :
  @evidence_validation_node scripted (initial_state sample_chunk) []
  = (Returns (errors_keep_update ["No classification to validate"] false), []) /\
  @evidence_validation_node scripted paraphrased_state []
  = (Returns (errors_keep_update
                ["Evidence snippet not found verbatim in chunk text"] false), []) /\
  @decision_router default_settings
    (merge paraphrased_state
       (errors_keep_update ["Evidence snippet not found verbatim in chunk text"] false))
  = "error_handler".
Proof.
  repeat apply conj.
  - destruct (@validation_failure_update scripted default_settings
                (initial_state sample_chunk) []) as (Habsent & _).
    apply Habsent. reflexivity.
  - destruct (@validation_failure_update scripted default_settings
                paraphrased_state []) as (_ & Hmismatch & _).
    eapply (Hmismatch _ "the board evaluates a literacy pilot");
      [reflexivity | reflexivity |].
    intros Hsub. apply str_contains_spec in Hsub. vm_compute in Hsub. discriminate.
  - destruct (@validation_failure_update scripted default_settings
                paraphrased_state []) as (_ & _ & Hroute).
    apply (Hroute "Evidence snippet not found verbatim in chunk text").
Defined.

Lemma classify_node_contains_failures_witness :
  @classify_node scripted (initial_state sample_chunk) []
  = (Returns (errors_update ["classify_node: Request timed out."]), []) /\
  (exists missing,
     missing ∈ required_fields /\
     missing_confidence_classification !! missing = None /\
     @classify_node scripted (initial_state sample_chunk)
       [Returns (JObj missing_confidence_classification)]
     = (Returns (errors_update
                   ["classify_node: "
                    +:+ ("Missing required field in classification: " +:+ missing)]),
        [])) /\
  (exists msg,
     @classify_node scripted (initial_state sample_chunk) [Returns JNull]
     = (Returns (errors_update ["classify_node: " +:+ msg]), [])) /\
  (exists msg,
     @classify_node scripted (initial_state sample_chunk)
       [Returns (JArr [JStr "category"; JStr "confidence"; JStr "evidence_snippet";
                       JStr "rationale"])]
     = (Returns (errors_update ["classify_node: " +:+ msg]), [])) /\
  (exists final w1,
     @evaluate_chunk_trace scripted default_settings sample_chunk
       [Returns (JObj missing_confidence_classification)]
     = (Returns (final, [Classify; ValidateEvidence; ErrorHandler]), w1) /\
     classification final = None /\
     errors final <> [] /\
     keep final = false /\
     signal_record final = None) /\
  (exists final w1,
     @evaluate_chunk_trace scripted default_settings sample_chunk [Returns JNull]
     = (Returns (final, [Classify; ValidateEvidence; ErrorHandler]), w1) /\
     classification final = None /\
     errors final <> [] /\
     keep final = false /\
     signal_record final = None) /\
  @classify_node scripted (initial_state sample_chunk) [Returns sample_classification]
  = (Returns (classification_update
                {| category := JStr "pilot_evaluation"; confidence := conf_082;
                   evidence_snippet :=
                     JStr "evaluate a new literacy curriculum pilot in Q1 2026";
                   rationale := JStr "The board plans a pilot." |}),
     []) /\
  (exists m r_confidence,
     @classify_request scripted sample_chunk [Returns sample_classification]
     = (Returns (JObj m), []) /\
     m !! "category" = Some (JStr "pilot_evaluation") /\
     m !! "confidence" = Some r_confidence /\
     py_float (@float_of_str scripted) r_confidence = Returns conf_082 /\
     m !! "evidence_snippet"
     = Some (JStr "evaluate a new literacy curriculum pilot in Q1 2026") /\
     m !! "rationale" = Some (JStr "The board plans a pilot.")).
Proof.
  repeat apply conj.
  - destruct (@classify_node_contains_failures scripted default_settings
                (initial_state sample_chunk) []) as (_ & Hfail & _).
    apply (Hfail (ExternalError "Request timed out.")). reflexivity.
  - destruct (@classify_node_contains_failures scripted default_settings
                (initial_state sample_chunk)
                [Returns (JObj missing_confidence_classification)])
      as (_ & _ & Hmiss & _).
    apply (Hmiss missing_confidence_classification [] "confidence").
    + reflexivity.
    + unfold required_fields. rewrite !elem_of_cons. tauto.
    + vm_compute. reflexivity.
  - destruct (@classify_node_contains_failures scripted default_settings
                (initial_state sample_chunk) [Returns JNull])
      as (_ & _ & _ & Hany & _).
    apply (Hany JNull []); [reflexivity | discriminate].
  - destruct (@classify_node_contains_failures scripted default_settings
                (initial_state sample_chunk)
                [Returns (JArr [JStr "category"; JStr "confidence";
                                JStr "evidence_snippet"; JStr "rationale"])])
      as (_ & _ & _ & Hany & _).
    apply (Hany (JArr [JStr "category"; JStr "confidence";
                       JStr "evidence_snippet"; JStr "rationale"]) []);
      [reflexivity | discriminate].
  - destruct (@classify_node_contains_failures scripted default_settings
                (initial_state sample_chunk) []) as (_ & _ & _ & _ & Hend & _).
    apply Hend. right.
    exists (JObj missing_confidence_classification), [].
    split; [reflexivity |].
    intros m [= <-]. exists "confidence".
    split; [unfold required_fields; rewrite !elem_of_cons; tauto | vm_compute; reflexivity].
  - destruct (@classify_node_contains_failures scripted default_settings
                (initial_state sample_chunk) []) as (_ & _ & _ & _ & Hend & _).
    apply Hend. right. exists JNull, []. split; [reflexivity | discriminate].
  - destruct (@classify_node_contains_failures scripted default_settings
                (initial_state sample_chunk) [Returns sample_classification])
      as (_ & _ & _ & _ & _ & Hok & _).
    apply (Hok sample_classification_fields []
             (JStr "pilot_evaluation") (JFloat conf_082)
             (JStr "evaluate a new literacy curriculum pilot in Q1 2026")
             (JStr "The board plans a pilot.") conf_082);
      vm_compute; reflexivity.
  - destruct (@classify_node_contains_failures scripted default_settings
                (initial_state sample_chunk) [Returns sample_classification])
      as (_ & _ & _ & _ & _ & _ & Honly).
    apply (Honly {| category := JStr "pilot_evaluation"; confidence := conf_082;
                    evidence_snippet :=
                      JStr "evaluate a new literacy curriculum pilot in Q1 2026";
                    rationale := JStr "The board plans a pilot." |} []).
    vm_compute. reflexivity.
Defined.


(* ===================================================================== *)
(** ** Every path through the graph, with its final state *)
(* ===================================================================== *)

Section Paths.
Context `{rt : Runtime} `{cfg : Settings}.

(** The traversal of a chunk is one of the seven paths of [outcome]. *)
Lemma evaluate_chunk_outcome (chunk0 : ChunkData) (w : World) :
  outcome chunk0 w (evaluate_chunk_trace chunk0 w).
Proof.
  destruct (classify_node_shape (initial_state chunk0) w)
    as (w1 & [(c & Hrun) | (msg & Hrun)]).
  - unfold evaluate_chunk_trace, invoke, recursion_limit, entry_point.
    rewrite run_S. cbn [node_function]. rewrite Hrun.
    unfold next_node at 1. cbn [out_edge].
    rewrite run_S. cbn [node_function].
    unfold evidence_validation_node. open_monad.
    cbn [merge classification_update initial_state upd_classification classification
         chunk].
    destruct (py_in_str (evidence_snippet c) (text chunk0)) as [found|e] eqn:Hin;
      [| eapply outcome_snippet_not_str; eauto].
    destruct (evidence_snippet c) as [| | | |s| |] eqn:Hsn; try discriminate.
    cbn [py_in_str] in Hin. injection Hin as <-.
    destruct (str_contains (text chunk0) s) eqn:Hfound; cbn [negb].
    + apply str_contains_spec in Hfound.
      rewrite next_after_validate.
      cbn [merge no_update classification_update initial_state upd_classification
           upd_errors classification errors truthy].
      destruct (py_eq_str (category c) "none") eqn:Hcat.
      * rewrite run_drop. apply py_eq_str_spec in Hcat.
        eapply outcome_policy_drop; eauto.
      * apply py_eq_str_false in Hcat.
        destruct (PrimFloat.ltb (confidence c) CONFIDENCE_THRESHOLD) eqn:Hconf.
        -- rewrite run_drop. eapply outcome_policy_drop; eauto.
        -- assert (Hpass : passes chunk0 c) by (repeat split; eauto).
           rewrite run_S. cbn [node_function].
           change (merge _ no_update) with (validated_state chunk0 c).
           destruct (score_node_shape (validated_state chunk0 c) w1)
             as (w2 & [(sc & Hs) | (m & Hs)]); rewrite Hs, next_after_score.
           ++ cbn [merge scoring_update validated_state upd_errors upd_scoring
                   errors scoring truthy].
              destruct (SCORE_THRESHOLD <=? opportunity_score sc)%Z eqn:Hge;
                [| destruct (py_eq_str (recommended_next_step sc) "reach_out_now")
                     eqn:Hnext]; cbn [orb].
              ** rewrite run_S. cbn [node_function]. unfold normalize_node. open_monad.
                 cbn. apply Z.leb_le in Hge.
                 eapply (outcome_signal chunk0 w c sc w1 w2); eauto.
              ** rewrite run_S. cbn [node_function]. unfold normalize_node. open_monad.
                 cbn. apply py_eq_str_spec in Hnext.
                 eapply (outcome_signal chunk0 w c sc w1 w2); eauto.
              ** rewrite run_drop. apply Z.leb_gt in Hge. apply py_eq_str_false in Hnext.
                 eapply (outcome_low_score chunk0 w c sc w1 w2); eauto.
           ++ cbn [merge errors_update validated_state upd_errors errors].
              rewrite truthy_app, run_error_handler.
              eapply (outcome_score_failed chunk0 w c m w1 w2); eauto.
    + rewrite next_after_validate.
      cbn [merge errors_keep_update upd_errors errors]. rewrite truthy_app.
      rewrite run_error_handler.
      eapply outcome_snippet_not_found; eauto.
      intros Hsub. apply str_contains_spec in Hsub. cbn in Hsub. congruence.
  - erewrite run_after_classify_error; [| | exact Hrun].
    + eapply outcome_classify_failed. exact Hrun.
    + discriminate.
Qed.
End Paths.
(* ===================================================================== *)
(** ** What the nodes write *)
(* ===================================================================== *)

Section Footprints.
Context `{rt : Runtime} `{cfg : Settings}.

(** A node that returns leaves the error list as it was or adds one
    message at its end: nothing is removed, reordered or rewritten. *)
Theorem node_appends_errors
    (n : node) (state : EvaluatorState) (w w' : World) (u : Update) :
  node_function n state w = (Returns u, w') ->
  exists added,
    errors (merge state u) = (errors state ++ added)%list /\ length added <= 1.
Proof.
  intros Hrun. destruct n; cbn [node_function] in Hrun.
  - destruct (classify_node_shape state w) as (w1 & [(c & H) | (msg & H)]);
      rewrite H in Hrun; injection Hrun as <- _.
    + exists []. split; [cbn; now rewrite app_nil_r | cbn; lia].
    + eexists [_]. split; [reflexivity | cbn; lia].
  - unfold evidence_validation_node in Hrun. revert Hrun. open_monad.
    destruct (classification state) as [c|].
    + destruct (py_in_str (evidence_snippet c) (text (chunk state))) as [[|]|e];
        cbn [negb]; intros [= <- _].
      * exists []. split; [cbn; now rewrite app_nil_r | cbn; lia].
      * eexists [_]. split; [reflexivity | cbn; lia].
    + intros [= <- _]. eexists [_]. split; [reflexivity | cbn; lia].
  - destruct (score_node_shape state w) as (w1 & [(sc & H) | (msg & H)]);
      rewrite H in Hrun; injection Hrun as <- _.
    + exists []. split; [cbn; now rewrite app_nil_r | cbn; lia].
    + eexists [_]. split; [reflexivity | cbn; lia].
  - unfold normalize_node in Hrun. revert Hrun. open_monad.
    destruct (classification state); [| discriminate].
    destruct (scoring state); [| discriminate].
    intros [= <- _]. exists []. split; [cbn; now rewrite app_nil_r | cbn; lia].
  - injection Hrun as <- _. exists []. split; [cbn; now rewrite app_nil_r | cbn; lia].
  - injection Hrun as <- _. exists []. split; [cbn; now rewrite app_nil_r | cbn; lia].
Qed.

(** Each result has one writer: only [classify_node] changes the
    classification, only [score_node] the scoring, only [normalize_node]
    the signal record, and no other node can turn [keep] on. *)
Theorem node_write_footprint
    (n : node) (state : EvaluatorState) (w w' : World) (u : Update) :
  node_function n state w = (Returns u, w') ->
  (n <> Classify -> classification (merge state u) = classification state) /\
  (n <> Score -> scoring (merge state u) = scoring state) /\
  (n <> Normalize ->
   signal_record (merge state u) = signal_record state /\
   (keep (merge state u) = true -> keep state = true)).
Proof.
  intros Hrun. destruct n; cbn [node_function] in Hrun.
  - destruct (classify_node_shape state w) as (w1 & [(c & H) | (msg & H)]);
      rewrite H in Hrun; injection Hrun as <- _;
      repeat split; auto; congruence.
  - unfold evidence_validation_node in Hrun. revert Hrun. open_monad.
    destruct (classification state) as [c|] eqn:Hc.
    + destruct (py_in_str (evidence_snippet c) (text (chunk state))) as [[|]|e];
        cbn [negb]; intros [= <- _]; cbn; rewrite ?Hc; repeat split; auto;
        discriminate.
    + intros [= <- _]; cbn; rewrite ?Hc; repeat split; auto; discriminate.
  - destruct (score_node_shape state w) as (w1 & [(sc & H) | (msg & H)]);
      rewrite H in Hrun; injection Hrun as <- _;
      repeat split; auto; congruence.
  - unfold normalize_node in Hrun. revert Hrun. open_monad.
    destruct (classification state) eqn:Hc; [| discriminate].
    destruct (scoring state) eqn:Hs; [| discriminate].
    intros [= <- _]. cbn. rewrite Hc, Hs. repeat split; auto; congruence.
  - injection Hrun as <- _. cbn. repeat split; auto; discriminate.
  - injection Hrun as <- _. cbn. repeat split; auto; discriminate.
Qed.
End Footprints.

(* ===================================================================== *)
(** ** What the final state tells about the path *)
(* ===================================================================== *)

Section FinalStates.
Context `{rt : Runtime} `{cfg : Settings}.

(** [score_node] runs only on a chunk whose classification has a category
    other than ["none"], a confidence not below the threshold, and a
    snippet found verbatim in the text; the final state still holds that
    classification. *)
Theorem score_runs_only_after_pass
    (chunk0 : ChunkData) (w w' : World) (final : EvaluatorState) (stages : list node) :
  evaluate_chunk_trace chunk0 w = (Returns (final, stages), w') ->
  Score ∈ stages ->
  exists c, classification final = Some c /\ passes chunk0 c.
Proof.
  intros Hrun Hin.
  pose proof (evaluate_chunk_outcome chunk0 w) as Hout. rewrite Hrun in Hout.
  inversion Hout; subst; cbn; eauto; stage_membership.
Qed.

(** A signal record in the final state is the field-by-field projection
    of the chunk, the classification and the scoring held by that state,
    stamped with the clock of the final world; and the scoring reached
    the threshold or recommended ["reach_out_now"]. *)
Theorem signal_record_is_projection
    (chunk0 : ChunkData) (w w' : World) (final : EvaluatorState) (stages : list node)
    (r : SignalRecord.t) :
  evaluate_chunk_trace chunk0 w = (Returns (final, stages), w') ->
  signal_record final = Some r ->
  exists c sc,
    classification final = Some c /\
    scoring final = Some sc /\
    r = projected_record chunk0 c sc (now_isoformat w') /\
    ((SCORE_THRESHOLD <= opportunity_score sc)%Z \/
     recommended_next_step sc = JStr "reach_out_now").
Proof.
  intros Hrun Hr.
  pose proof (evaluate_chunk_outcome chunk0 w) as Hout. rewrite Hrun in Hout.
  inversion Hout; subst; cbn in Hr; try discriminate.
  injection Hr as <-. cbn. eauto 6.
Qed.

(** A traversal that ends in [drop] has an empty error list and a
    classification, and was dropped for one of three reasons: category
    ["none"], confidence below the threshold, or a score below the
    threshold without the ["reach_out_now"] recommendation. *)
Theorem drop_is_a_policy_decision
    (chunk0 : ChunkData) (w w' : World) (final : EvaluatorState) (stages : list node) :
  evaluate_chunk_trace chunk0 w = (Returns (final, stages), w') ->
  last stages = Some Drop ->
  errors final = [] /\
  exists c,
    classification final = Some c /\
    (category c = JStr "none" \/
     PrimFloat.ltb (confidence c) CONFIDENCE_THRESHOLD = true \/
     exists sc,
       scoring final = Some sc /\
       (opportunity_score sc < SCORE_THRESHOLD)%Z /\
       recommended_next_step sc <> JStr "reach_out_now").
Proof.
  intros Hrun Hlast.
  pose proof (evaluate_chunk_outcome chunk0 w) as Hout. rewrite Hrun in Hout.
  inversion Hout; subst; cbn in Hlast; try discriminate; cbn.
  - split; [reflexivity |]. exists c. split; [reflexivity |]. tauto.
  - split; [reflexivity |]. exists c. split; [reflexivity |]. eauto 6.
Qed.

(** The final error list holds at most two messages, and it is non-empty
    exactly when the traversal ended in [error_handler]. *)
Theorem error_list_of_a_traversal
    (chunk0 : ChunkData) (w w' : World) (final : EvaluatorState) (stages : list node) :
  evaluate_chunk_trace chunk0 w = (Returns (final, stages), w') ->
  length (errors final) <= 2 /\
  (errors final <> [] <-> last stages = Some ErrorHandler).
Proof.
  intros Hrun.
  pose proof (evaluate_chunk_outcome chunk0 w) as Hout. rewrite Hrun in Hout.
  inversion Hout; subst; cbn; (split; [lia |]); split;
    congruence || discriminate.
Qed.
End FinalStates.

Lemma node_appends_errors_witness :
  exists added,
    errors (merge paraphrased_state
              (errors_keep_update
                 ["Evidence snippet not found verbatim in chunk text"] false))
    = (errors paraphrased_state ++ added)%list /\ length added <= 1.
Proof.
  apply (@node_appends_errors scripted ValidateEvidence
           paraphrased_state [] []).
  vm_compute. reflexivity.
Defined.

Lemma node_write_footprint_witness :
  exists u,
    @score_node scripted classified_state [Returns sample_scoring] = (Returns u, []) /\
    classification (merge classified_state u) = classification classified_state /\
    signal_record (merge classified_state u) = signal_record classified_state /\
    (keep (merge classified_state u) = true -> keep classified_state = true).
Proof.
  eexists.
  assert (Hrun : @node_function scripted Score classified_state
                   [Returns sample_scoring] = (Returns _, []))
    by (vm_compute; reflexivity).
  destruct (@node_write_footprint scripted Score classified_state
              _ _ _ Hrun) as (Hc & _ & Hn).
  split; [exact Hrun |]. split; [apply Hc; discriminate |].
  apply Hn. discriminate.
Defined.

Lemma score_runs_only_after_pass_witness :
  exists final c,
    @evaluate_chunk_trace scripted default_settings sample_chunk
      [Returns sample_classification; Returns sample_scoring]
    = (Returns (final, [Classify; ValidateEvidence; Score; Normalize]), []) /\
    classification final = Some c /\
    @passes default_settings sample_chunk c.
Proof.
  eexists.
  assert (Hrun : @evaluate_chunk_trace scripted default_settings sample_chunk
                   [Returns sample_classification; Returns sample_scoring]
                 = (Returns (_, [Classify; ValidateEvidence; Score; Normalize]), []))
    by (vm_compute; reflexivity).
  destruct (@score_runs_only_after_pass scripted default_settings sample_chunk
              _ _ _ _ Hrun) as (c & Hc & Hpass).
  - rewrite !elem_of_cons. tauto.
  - exists c. split; [exact Hrun | split; [exact Hc | exact Hpass]].
Defined.

Lemma signal_record_is_projection_witness :
  exists final r c sc,
    @evaluate_chunk_trace scripted default_settings sample_chunk
      [Returns sample_classification; Returns sample_scoring]
    = (Returns (final, [Classify; ValidateEvidence; Score; Normalize]), []) /\
    signal_record final = Some r /\
    classification final = Some c /\
    scoring final = Some sc /\
    r = projected_record sample_chunk c sc "2026-01-15T09:30:00" /\
    ((50 <= opportunity_score sc)%Z \/ recommended_next_step sc = JStr "reach_out_now").
Proof.
  do 2 eexists.
  assert (Hrun : @evaluate_chunk_trace scripted default_settings sample_chunk
                   [Returns sample_classification; Returns sample_scoring]
                 = (Returns (_, [Classify; ValidateEvidence; Score; Normalize]), []))
    by (vm_compute; reflexivity).
  destruct (@signal_record_is_projection scripted default_settings sample_chunk
              _ _ _ _ _ Hrun eq_refl) as (c & sc & H).
  exists c, sc. split; [exact Hrun | split; [reflexivity | exact H]].
Defined.

Lemma drop_is_a_policy_decision_witness :
  exists final c,
    @evaluate_chunk_trace scripted default_settings sample_chunk
      [Returns none_classification]
    = (Returns (final, [Classify; ValidateEvidence; Drop]), []) /\
    errors final = [] /\
    classification final = Some c /\
    (category c = JStr "none" \/
     PrimFloat.ltb (confidence c) (@CONFIDENCE_THRESHOLD default_settings) = true \/
     exists sc,
       scoring final = Some sc /\
       (opportunity_score sc < @SCORE_THRESHOLD default_settings)%Z /\
       recommended_next_step sc <> JStr "reach_out_now").
Proof.
  eexists.
  assert (Hrun : @evaluate_chunk_trace scripted default_settings sample_chunk
                   [Returns none_classification]
                 = (Returns (_, [Classify; ValidateEvidence; Drop]), []))
    by (vm_compute; reflexivity).
  destruct (@drop_is_a_policy_decision scripted default_settings sample_chunk
              _ _ _ _ Hrun eq_refl) as (He & c & Hc & Hwhy).
  exists c. split; [exact Hrun | split; [exact He | split; [exact Hc | exact Hwhy]]].
Defined.

Lemma error_list_of_a_traversal_witness :
  exists final stages,
    @evaluate_chunk_trace scripted default_settings sample_chunk
      [Returns paraphrased_classification]
    = (Returns (final, stages), []) /\
    length (errors final) <= 2 /\
    (errors final <> [] <-> last stages = Some ErrorHandler).
Proof.
  do 2 eexists.
  assert (Hrun : @evaluate_chunk_trace scripted default_settings sample_chunk
                   [Returns paraphrased_classification]
                 = (Returns (_, _), []))
    by (vm_compute; reflexivity).
  split; [exact Hrun |].
  exact (@error_list_of_a_traversal scripted default_settings sample_chunk _ _ _ _ Hrun).
Defined.
(* ===================================================================== *)
(** ** The batch function and the evaluation loop *)
(* ===================================================================== *)

Section BatchProperties.
Context `{rt : Runtime} `{cfg : Settings}.

Lemma evaluate_chunk_unfold (chunk0 : ChunkData) (w : World) :
  evaluate_chunk chunk0 w =
  match evaluate_chunk_trace chunk0 w with
  | (Returns traced, w') => (Returns (fst traced), w')
  | (Raises e, w') => (Raises e, w')
  end.
Proof.
  unfold evaluate_chunk. open_monad.
  destruct (evaluate_chunk_trace chunk0 w) as [[traced|e] w']; reflexivity.
Qed.

(** What one chunk can do to the state an evaluation leaves behind. *)
Lemma evaluate_chunk_cases (chunk0 : ChunkData) (w : World) :
  exists w',
    (exists e, evaluate_chunk chunk0 w = (Raises e, w')) \/
    (exists final,
       evaluate_chunk chunk0 w = (Returns final, w') /\
       keep final = false /\ signal_record final = None /\
       length (errors final) <= 2) \/
    (exists final r,
       evaluate_chunk chunk0 w = (Returns final, w') /\
       keep final = true /\ signal_record final = Some r /\
       errors final = [] /\ produced_from r chunk0).
Proof.
  rewrite evaluate_chunk_unfold.
  pose proof (evaluate_chunk_outcome chunk0 w) as Hout.
  destruct (evaluate_chunk_trace chunk0 w) as [[[final stages]|e] w'] eqn:Hrun;
    exists w'; [| left; eauto].
  inversion Hout as [| | | | | |c sc w1 w2 Hc (Hcat & _ & s & Hsn & Hsub) Hs Hok];
    subst; cbn [fst];
    try (right; left; eexists; split; [reflexivity |]; cbn; repeat split; lia).
  right; right. do 2 eexists. split; [reflexivity |]. cbn.
  repeat split; eauto.
Qed.

Lemma evaluate_chunks_turn_cases (signals : list SignalRecord.t) (chunk0 : ChunkData)
    (w : World) :
  exists w',
    evaluate_chunks_turn signals chunk0 w = (Returns signals, w') \/
    exists r,
      evaluate_chunks_turn signals chunk0 w = (Returns (signals ++ [r])%list, w') /\
      produced_from r chunk0.
Proof.
  unfold evaluate_chunks_turn. open_monad.
  destruct (evaluate_chunk_cases chunk0 w)
    as (w' & [(e & ->) | [(final & -> & Hk & Hr & _) | (final & r & -> & Hk & Hr & _ & Hp)]]);
    exists w'.
  - left. reflexivity.
  - left. rewrite Hk. reflexivity.
  - right. exists r. rewrite Hk, Hr. split; [reflexivity | exact Hp].
Qed.

Lemma evaluate_chunks_loop_spec (chunks : list ChunkData) :
  forall (signals : list SignalRecord.t) (w : World),
  exists more w' kept,
    evaluate_chunks_loop signals chunks w = (Returns (signals ++ more)%list, w') /\
    kept `sublist_of` chunks /\
    Forall2 produced_from more kept.
Proof.
  induction chunks as [|chunk0 rest IH]; intros signals w.
  - exists [], w, []. cbn. rewrite app_nil_r. repeat split; constructor.
  - cbn [evaluate_chunks_loop]. unfold bind at 1.
    destruct (evaluate_chunks_turn_cases signals chunk0 w) as (w1 & [-> | (r & -> & Hp)]).
    + destruct (IH signals w1) as (more & w' & kept & -> & Hsub & Hall).
      exists more, w', kept. repeat split; auto. now apply sublist_cons.
    + destruct (IH (signals ++ [r])%list w1) as (more & w' & kept & -> & Hsub & Hall).
      exists (r :: more), w', (chunk0 :: kept).
      rewrite <- app_assoc. repeat split; auto using sublist_skip.
Qed.

(** [evaluate_chunks] never raises, whatever the traversals do.  The
    records it returns come, in order, from a sub-sequence of the chunks:
    each has the identifiers of its chunk, a category other than
    ["none"], and evidence quoted verbatim from that chunk's text. *)
Theorem evaluate_chunks_returns_quoted_signals (chunks : list ChunkData) (w : World) :
  exists signals w' kept,
    evaluate_chunks chunks w = (Returns signals, w') /\
    kept `sublist_of` chunks /\
    Forall2 produced_from signals kept.
Proof.
  destruct (evaluate_chunks_loop_spec chunks [] w) as (more & w' & kept & H).
  exists more, w', kept. exact H.
Qed.

Lemma evaluate_chunks_loop_acc (chunks : list ChunkData) :
  forall (signals : list SignalRecord.t) (w : World),
  exists more w',
    evaluate_chunks_loop [] chunks w = (Returns more, w') /\
    evaluate_chunks_loop signals chunks w = (Returns (signals ++ more)%list, w').
Proof.
  induction chunks as [|chunk0 rest IH]; intros signals w.
  - exists [], w. cbn. now rewrite app_nil_r.
  - cbn [evaluate_chunks_loop]. unfold bind.
    assert (Hturn : exists d w1,
               evaluate_chunks_turn [] chunk0 w = (Returns d, w1) /\
               evaluate_chunks_turn signals chunk0 w = (Returns (signals ++ d)%list, w1)).
    { unfold evaluate_chunks_turn. open_monad.
      destruct (evaluate_chunk chunk0 w) as [[final|e] w2].
      - destruct (keep final); [destruct (signal_record final) as [r|] |].
        + exists [r], w2. split; reflexivity.
        + exists [], w2. rewrite app_nil_r. split; reflexivity.
        + exists [], w2. rewrite app_nil_r. split; reflexivity.
      - exists [], w2. rewrite app_nil_r. split; reflexivity. }
    destruct Hturn as (d & w1 & -> & ->).
    destruct (IH d w1) as (more1 & w' & H0 & ->).
    destruct (IH (signals ++ d)%list w1) as (more2 & w'' & H0' & ->).
    rewrite H0 in H0'. injection H0' as <- <-.
    exists (d ++ more1)%list, w'. now rewrite app_assoc.
Qed.

(** A batch can be cut anywhere: evaluating [first ++ second] gives the
    signals of [first] followed by those of [second], the second part
    starting in the world the first part left. *)
Theorem evaluate_chunks_app (first second : list ChunkData) (w : World) :
  exists s1 w1 s2 w2,
    evaluate_chunks first w = (Returns s1, w1) /\
    evaluate_chunks second w1 = (Returns s2, w2) /\
    evaluate_chunks (first ++ second) w = (Returns (s1 ++ s2)%list, w2).
Proof.
  unfold evaluate_chunks.
  assert (Hgen : forall signals w0,
             exists s1 w1 s2 w2,
               evaluate_chunks_loop signals first w0 = (Returns (signals ++ s1)%list, w1) /\
               evaluate_chunks_loop [] second w1 = (Returns s2, w2) /\
               evaluate_chunks_loop signals (first ++ second) w0
               = (Returns (signals ++ s1 ++ s2)%list, w2)).
  { induction first as [|chunk0 rest IH]; intros signals w0.
    - destruct (evaluate_chunks_loop_acc second signals w0) as (s2 & w2 & H0 & Hacc).
      exists [], w0, s2, w2. cbn. rewrite app_nil_r. auto.
    - cbn [evaluate_chunks_loop app]. unfold bind.
      destruct (evaluate_chunks_turn_cases signals chunk0 w0)
        as (w1 & [-> | (r & -> & _)]).
      + apply IH.
      + destruct (IH (signals ++ [r])%list w1) as (s1 & w1' & s2 & w2 & Ha & Hb & Hc).
        exists (r :: s1), w1', s2, w2.
        rewrite Ha, Hc, <- !app_assoc. auto. }
  destruct (Hgen [] w) as (s1 & w1 & s2 & w2 & Ha & Hb & Hc).
  exists s1, w1, s2, w2. auto.
Qed.

Lemma evaluate_and_record_cases (p : Progress) (chunk0 : ChunkData) (w : World) :
  exists rec w' kept failed,
    evaluate_and_record p chunk0 w
    = (Returns {| eval_file := (eval_file p ++ [rec])%list;
                  kept_count := kept_count p + kept;
                  error_count := error_count p + failed |}, w') /\
    record_of rec chunk0 /\
    kept = match EvalRecord.signal_record rec with Some _ => 1 | None => 0 end /\
    kept + failed <= 1.
Proof.
  unfold evaluate_and_record. open_monad.
  destruct (evaluate_chunk_cases chunk0 w)
    as (w' & [(e & ->) | [(final & -> & Hk & Hr & He) | (final & r & -> & Hk & Hr & He & Hp)]]).
  - eexists _, w', 0, 1. rewrite Nat.add_0_r. split; [reflexivity |].
    unfold record_of. cbn.
    repeat apply conj; try reflexivity; try lia; try discriminate.
    intros [? [=]].
  - rewrite Hr. eexists _, w', 0, 0. rewrite !Nat.add_0_r. split; [reflexivity |].
    unfold record_of. cbn. rewrite Hk.
    repeat apply conj; try reflexivity; try lia; try discriminate.
    intros [? [=]].
  - rewrite Hr. eexists _, w', 1, 0. rewrite !Nat.add_0_r. split; [reflexivity |].
    unfold record_of. cbn. rewrite Hk, He.
    repeat apply conj; try reflexivity; try (cbn; lia); eauto.
    intros r0 [= <-]. split; [reflexivity | exact Hp].
Qed.

Lemma evaluation_loop_spec (chunks : list ChunkData) :
  forall (p : Progress) (w : World),
  exists p' w' recs,
    evaluation_loop p chunks w = (Returns p', w') /\
    eval_file p' = (eval_file p ++ recs)%list /\
    Forall2 record_of recs chunks /\
    kept_count p'
    = kept_count p
      + length (filter (fun rec => is_Some (EvalRecord.signal_record rec)) recs) /\
    kept_count p' + error_count p'
    <= kept_count p + error_count p + length chunks.
Proof.
  induction chunks as [|chunk0 rest IH]; intros p w.
  - exists p, w, []. cbn. rewrite app_nil_r. repeat split; auto; lia.
  - cbn [evaluation_loop]. unfold bind at 1.
    destruct (evaluate_and_record_cases p chunk0 w)
      as (rec & w1 & kept & failed & -> & Hrec & Hkept & Hle).
    destruct (IH {| eval_file := (eval_file p ++ [rec])%list;
                    kept_count := kept_count p + kept;
                    error_count := error_count p + failed |} w1)
      as (p' & w' & recs & -> & Hfile & Hall & Hk & Hsum).
    cbn in Hfile, Hk, Hsum.
    exists p', w', (rec :: recs). split; [reflexivity |].
    split; [now rewrite Hfile, <- app_assoc |].
    split; [now constructor |].
    split; [| cbn; lia].
    rewrite Hk, Hkept, filter_cons.
    destruct (EvalRecord.signal_record rec) as [r|].
    + rewrite decide_True by eauto. cbn. lia.
    + rewrite decide_False by (intros [? [=]]). lia.
Qed.

(** The evaluation loop never raises and writes exactly one record per
    chunk, in the order of the chunks.  Each record has its chunk's
    identifiers, [keep] exactly when it carries a signal record, at most
    two error messages, and a signal record only without errors and with
    evidence quoted from the chunk. *)
Theorem run_evaluation_writes_one_record_per_chunk
    (chunks : list ChunkData) (w : World) :
  exists p w',
    run_evaluation chunks w = (Returns p, w') /\
    Forall2 record_of (eval_file p) chunks.
Proof.
  destruct (evaluation_loop_spec chunks
              {| eval_file := []; kept_count := 0; error_count := 0 |} w)
    as (p & w' & recs & Hrun & Hfile & Hall & _).
  exists p, w'. split; [exact Hrun |]. now rewrite Hfile.
Qed.

(** The counters of the summary line: [kept_count] is the number of
    written records that carry a signal record, and kept plus errors
    never exceeds the number of chunks, so the "Dropped" figure computed
    from them is not negative. *)
Theorem run_evaluation_counters (chunks : list ChunkData) (w : World) :
  exists p w',
    run_evaluation chunks w = (Returns p, w') /\
    kept_count p
    = length (filter (fun rec => is_Some (EvalRecord.signal_record rec)) (eval_file p)) /\
    kept_count p + error_count p <= length chunks.
Proof.
  destruct (evaluation_loop_spec chunks
              {| eval_file := []; kept_count := 0; error_count := 0 |} w)
    as (p & w' & recs & Hrun & Hfile & _ & Hk & Hsum).
  exists p, w'. split; [exact Hrun |]. cbn in *. rewrite Hfile. split; [exact Hk | exact Hsum].
Qed.
End BatchProperties.

(** With a positive [--limit], only the first [limit] chunks of the file
    are candidates, evaluated or not: every selected chunk is among them
    and has no evaluation yet, every such candidate is selected, and
    when all candidates are already evaluated nothing is selected,
    whatever follows in the file. *)
Theorem limit_applies_before_resume
    (limit : Z) (evaluated_ids : gset string) (chunks : list ChunkData) :
  (0 < limit)%Z ->
  (forall c, c ∈ chunks_to_evaluate limit evaluated_ids chunks <->
             c ∈ take (Z.to_nat limit) chunks /\ chunk_id c ∉ evaluated_ids) /\
  (Z.of_nat (length (chunks_to_evaluate limit evaluated_ids chunks)) <= limit)%Z /\
  ((forall c, c ∈ take (Z.to_nat limit) chunks -> chunk_id c ∈ evaluated_ids) ->
   chunks_to_evaluate limit evaluated_ids chunks = []).
Proof.
  intros Hpos. unfold chunks_to_evaluate.
  apply Z.ltb_lt in Hpos as Hb. rewrite Hb.
  split; [| split].
  - intros c. rewrite list_elem_of_filter. tauto.
  - pose proof (length_filter (fun c => chunk_id c ∉ evaluated_ids)
                  (take (Z.to_nat limit) chunks)) as Hf.
    rewrite length_take in Hf. lia.
  - intros Hall.
    destruct (filter (fun c => chunk_id c ∉ evaluated_ids)
                (take (Z.to_nat limit) chunks)) as [|c rest] eqn:Hf; [reflexivity |].
    assert (Hin : c ∈ filter (fun c => chunk_id c ∉ evaluated_ids)
                        (take (Z.to_nat limit) chunks))
      by (rewrite Hf; apply list_elem_of_here).
    apply list_elem_of_filter in Hin as [Hnot Hin].
    exfalso. apply Hnot, Hall, Hin.
Qed.
(* ===================================================================== *)
(** ** Stripping, searching and cutting text *)
(* ===================================================================== *)

Lemma lstrip_head (p : N -> bool) (s : pystr) (c : N) :
  head (lstrip_with p s) = Some c -> p c = false.
Proof.
  induction s as [|x s IH]; cbn; [discriminate |].
  destruct (p x) eqn:Hx; [exact IH |]. cbn. now intros [= <-].
Qed.

Lemma rstrip_last (p : N -> bool) (s : pystr) (c : N) :
  last (rstrip_with p s) = Some c -> p c = false.
Proof.
  revert c. induction s as [|x s IH]; intros c; cbn; [discriminate |].
  destruct (rstrip_with p s) as [|y kept] eqn:Hk.
  - destruct (p x) eqn:Hx; cbn; [discriminate | now intros [= <-]].
  - change (last (x :: y :: kept)) with (last (y :: kept)). apply IH.
Qed.

Lemma rstrip_head (p : N -> bool) (s : pystr) (c : N) :
  head (rstrip_with p s) = Some c -> head s = Some c.
Proof.
  destruct s as [|x s]; cbn; [discriminate |].
  destruct (rstrip_with p s); [destruct (p x) |]; cbn; congruence.
Qed.

Lemma lstrip_fixed (p : N -> bool) (s : pystr) :
  (forall c, head s = Some c -> p c = false) -> lstrip_with p s = s.
Proof.
  destruct s as [|x s]; cbn; [reflexivity |].
  intros H. now rewrite (H x eq_refl).
Qed.

Lemma rstrip_fixed (p : N -> bool) (s : pystr) :
  (forall c, last s = Some c -> p c = false) -> rstrip_with p s = s.
Proof.
  induction s as [|x s IH]; cbn; [reflexivity |].
  intros H. destruct s as [|y s].
  - cbn. now rewrite (H x eq_refl).
  - rewrite IH by (intros c Hc; apply H; exact Hc). reflexivity.
Qed.

Lemma strip_with_clean (p : N -> bool) (s : pystr) :
  (forall c, head (strip_with p s) = Some c -> p c = false) /\
  (forall c, last (strip_with p s) = Some c -> p c = false).
Proof.
  unfold strip_with. split; intros c Hc.
  - apply rstrip_head in Hc. now apply lstrip_head in Hc.
  - now apply rstrip_last in Hc.
Qed.

Lemma strip_with_fixed (p : N -> bool) (s : pystr) :
  (forall c, head s = Some c -> p c = false) ->
  (forall c, last s = Some c -> p c = false) ->
  strip_with p s = s.
Proof.
  intros Hh Hl. unfold strip_with. rewrite lstrip_fixed by exact Hh.
  now apply rstrip_fixed.
Qed.

Lemma strip_with_idemp (p : N -> bool) (s : pystr) :
  strip_with p (strip_with p s) = strip_with p s.
Proof. apply strip_with_fixed; apply strip_with_clean. Qed.

Lemma starts_with_app (needle rest : pystr) : starts_with needle (needle ++ rest)%list = true.
Proof.
  induction needle as [|a needle IH]; [reflexivity |].
  cbn. now rewrite N.eqb_refl.
Qed.

(** Before a marker that starts with [h], in text without [h], nothing
    matches; so the marker is found where it stands. *)
Lemma find_index_after_free (h : N) (tl pre rest : pystr) :
  Forall (fun c => c <> h) pre ->
  find_index (pre ++ (h :: tl) ++ rest)%list (h :: tl) = Some (length pre).
Proof.
  induction 1 as [|x pre Hx _ IH].
  - cbn [app length find_index]. change (h :: tl ++ rest)%list with ((h :: tl) ++ rest)%list.
    now rewrite starts_with_app.
  - cbn [app length find_index starts_with].
    apply N.eqb_neq in Hx. rewrite N.eqb_sym, Hx. cbn [andb].
    change (pre ++ h :: tl ++ rest)%list with (pre ++ (h :: tl) ++ rest)%list.
    now rewrite IH.
Qed.

Lemma find_index_free (h : N) (tl s : pystr) :
  Forall (fun c => c <> h) s -> find_index s (h :: tl) = None.
Proof.
  induction 1 as [|x s Hx _ IH]; [reflexivity |].
  cbn [find_index starts_with].
  apply N.eqb_neq in Hx. rewrite N.eqb_sym, Hx. cbn [andb]. now rewrite IH.
Qed.

Lemma starts_with_prefix (a b s : pystr) :
  starts_with (a ++ b)%list s = true -> starts_with a s = true.
Proof.
  revert s. induction a as [|x a IH]; intros s; [reflexivity |].
  destruct s as [|y s]; cbn; [discriminate |].
  destruct (x =? y)%N; cbn; [apply IH | discriminate].
Qed.

Lemma find_index_prefix (a b s : pystr) :
  find_index s a = None -> find_index s (a ++ b)%list = None.
Proof.
  induction s as [|y s IH]; cbn [find_index].
  - destruct (starts_with a []) eqn:Ha; [discriminate |]. intros _.
    destruct (starts_with (a ++ b)%list []) eqn:Hab; [| reflexivity].
    apply starts_with_prefix in Hab. congruence.
  - destruct (starts_with a (y :: s)) eqn:Ha; [discriminate |].
    destruct (find_index s a); [discriminate |]. intros _.
    destruct (starts_with (a ++ b)%list (y :: s)) eqn:Hab.
    + apply starts_with_prefix in Hab. congruence.
    + now rewrite IH.
Qed.

Lemma clamp_index_inside (len i : Z) :
  (0 <= i <= len)%Z -> clamp_index len i = i.
Proof. unfold clamp_index. intros H. destruct (Z.ltb_spec i 0); lia. Qed.

(** Cutting out the middle of three pieces. *)
Lemma py_slice_middle (a b c : pystr) :
  py_slice (a ++ b ++ c)%list (Z.of_nat (length a)) (Z.of_nat (length a + length b)) = b.
Proof.
  unfold py_slice. rewrite !length_app.
  rewrite !clamp_index_inside by lia.
  destruct (Z.ltb_spec (Z.of_nat (length a)) (Z.of_nat (length a + length b))).
  - rewrite Nat2Z.id, drop_app_length.
    replace (Z.to_nat _) with (length b) by lia.
    now rewrite take_app_length.
  - destruct b; [reflexivity | cbn in *; lia].
Qed.

(** Cutting from a position to "one before the end". *)
Lemma py_slice_drop_last (a b : pystr) :
  py_slice (a ++ b)%list (Z.of_nat (length a)) (-1) = removelast b.
Proof.
  unfold py_slice. rewrite length_app.
  rewrite clamp_index_inside by lia.
  unfold clamp_index. cbn [Z.ltb Z.compare].
  destruct (Z.ltb_spec (Z.of_nat (length a))
              (Z.max (-1 + Z.of_nat (length a + length b)) 0)) as [Hlt | Hge].
  - rewrite Nat2Z.id, drop_app_length.
    replace (Z.to_nat _) with (length b - 1) by lia.
    clear Hlt. induction b as [|x b IH]; [reflexivity |].
    destruct b as [|y b]; [reflexivity |].
    cbn [length removelast] in *. rewrite <- IH.
    replace (S (S (length b)) - 1) with (S (S (length b) - 1)) by lia. reflexivity.
  - destruct b as [|x [|y b]]; [reflexivity | reflexivity | cbn [length] in Hge; lia].
Qed.

Lemma str_find_from_drop (a rest needle : pystr) (i : nat) :
  find_index rest needle = Some i ->
  str_find_from (a ++ rest)%list needle (Z.of_nat (length a))
  = Z.of_nat (length a + i).
Proof.
  intros Hi. unfold str_find_from. rewrite length_app.
  destruct (Z.ltb_spec (Z.of_nat (length a + length rest)) (Z.of_nat (length a)));
    [lia |].
  rewrite clamp_index_inside by lia.
  rewrite Nat2Z.id, drop_app_length, Hi. lia.
Qed.

Lemma str_find_from_drop_none (a rest needle : pystr) :
  find_index rest needle = None ->
  str_find_from (a ++ rest)%list needle (Z.of_nat (length a)) = (-1)%Z.
Proof.
  intros Hi. unfold str_find_from. rewrite length_app.
  destruct (Z.ltb_spec (Z.of_nat (length a + length rest)) (Z.of_nat (length a)));
    [reflexivity |].
  rewrite clamp_index_inside by lia.
  now rewrite Nat2Z.id, drop_app_length, Hi.
Qed.

Lemma str_find_index (s needle : pystr) (i : nat) :
  find_index s needle = Some i -> str_find s needle = Z.of_nat i.
Proof.
  intros Hi. apply (str_find_from_drop [] s needle i Hi).
Qed.
(* ===================================================================== *)
(** ** src/llm.py: taking the JSON out of the model's reply *)
(* ===================================================================== *)

(** Whatever the reply, the extracted text has no white space at either
    end. *)
Theorem extract_json_is_stripped (content : pystr) :
  stripped (Llm._extract_json_from_response content).
Proof. unfold Llm._extract_json_from_response, str_strip. apply strip_with_clean. Qed.

(** A reply without three backticks in a row is only stripped. *)
Theorem extract_json_without_fence (content : pystr) :
  str_in (lit "```") content = false ->
  Llm._extract_json_from_response content = str_strip content.
Proof.
  unfold Llm._extract_json_from_response, str_in. intros Hno.
  destruct (find_index content (lit "```")) eqn:Hf; [discriminate |].
  change (lit "```json") with (lit "```" ++ lit "json")%list.
  now rewrite (find_index_prefix _ _ _ Hf).
Qed.

Lemma extract_json_between_fences (pre body post : pystr) :
  Forall (fun c => c <> backtick) pre ->
  Forall (fun c => c <> backtick) body ->
  Llm._extract_json_from_response
    (pre ++ lit "```json" ++ body ++ lit "```" ++ post)%list
  = str_strip body.
Proof.
  intros Hpre Hbody. unfold Llm._extract_json_from_response, str_in.
  pose proof (find_index_after_free backtick (lit "``json") pre
                (body ++ lit "```" ++ post)%list Hpre) as Hopen.
  change (backtick :: lit "``json") with (lit "```json") in Hopen.
  rewrite Hopen, (str_find_index _ _ _ Hopen).
  pose proof (find_index_after_free backtick (lit "``") body post Hbody) as Hclose.
  change (backtick :: lit "``") with (lit "```") in Hclose.
  replace (Z.of_nat (length pre) + 7)%Z
    with (Z.of_nat (length (pre ++ lit "```json")%list))
    by (rewrite length_app; cbn; lia).
  replace (pre ++ lit "```json" ++ body ++ lit "```" ++ post)%list
    with ((pre ++ lit "```json") ++ body ++ lit "```" ++ post)%list
    by now rewrite <- app_assoc.
  rewrite (str_find_from_drop _ _ _ _ Hclose), py_slice_middle.
  unfold str_strip. now rewrite strip_with_idemp.
Qed.

(** A payload between [```json] and the next [```] is returned stripped,
    whatever precedes the opening fence and follows the closing one,
    when neither the text before the fence nor the payload holds a
    backtick. *)
Theorem extract_json_fenced (pre body post : pystr) :
  Forall (fun c => c <> backtick) pre ->
  Forall (fun c => c <> backtick) body ->
  Llm._extract_json_from_response
    (pre ++ lit "```json" ++ body ++ lit "```" ++ post)%list
  = str_strip body.
Proof. exact (extract_json_between_fences pre body post). Qed.

(** The same for a plain [```] fence, taken when the reply has no
    [```json] anywhere. *)
Theorem extract_json_plain_fence (pre body post : pystr) :
  Forall (fun c => c <> backtick) pre ->
  Forall (fun c => c <> backtick) body ->
  str_in (lit "```json") (pre ++ lit "```" ++ body ++ lit "```" ++ post)%list = false ->
  Llm._extract_json_from_response (pre ++ lit "```" ++ body ++ lit "```" ++ post)%list
  = str_strip body.
Proof.
  intros Hpre Hbody Hno. unfold Llm._extract_json_from_response. rewrite Hno.
  unfold str_in.
  pose proof (find_index_after_free backtick (lit "``") pre
                (body ++ lit "```" ++ post)%list Hpre) as Hopen.
  change (backtick :: lit "``") with (lit "```") in Hopen.
  rewrite Hopen, (str_find_index _ _ _ Hopen).
  pose proof (find_index_after_free backtick (lit "``") body post Hbody) as Hclose.
  change (backtick :: lit "``") with (lit "```") in Hclose.
  replace (Z.of_nat (length pre) + 3)%Z
    with (Z.of_nat (length (pre ++ lit "```")%list))
    by (rewrite length_app; cbn; lia).
  replace (pre ++ lit "```" ++ body ++ lit "```" ++ post)%list
    with ((pre ++ lit "```") ++ body ++ lit "```" ++ post)%list
    by now rewrite <- app_assoc.
  rewrite (str_find_from_drop _ _ _ _ Hclose), py_slice_middle.
  unfold str_strip. now rewrite strip_with_idemp.
Qed.

(** When the [```json] fence is never closed, [find] answers -1 and the
    slice stops one character before the end: the last character of the
    reply is lost. *)
Theorem extract_json_unclosed_fence (pre rest : pystr) :
  Forall (fun c => c <> backtick) pre ->
  Forall (fun c => c <> backtick) rest ->
  Llm._extract_json_from_response (pre ++ lit "```json" ++ rest)%list
  = str_strip (removelast rest).
Proof.
  intros Hpre Hrest. unfold Llm._extract_json_from_response, str_in.
  pose proof (find_index_after_free backtick (lit "``json") pre rest Hpre) as Hopen.
  change (backtick :: lit "``json") with (lit "```json") in Hopen.
  rewrite Hopen, (str_find_index _ _ _ Hopen).
  pose proof (find_index_free backtick (lit "``") rest Hrest) as Hclose.
  change (backtick :: lit "``") with (lit "```") in Hclose.
  replace (Z.of_nat (length pre) + 7)%Z
    with (Z.of_nat (length (pre ++ lit "```json")%list))
    by (rewrite length_app; cbn; lia).
  replace (pre ++ lit "```json" ++ rest)%list
    with ((pre ++ lit "```json") ++ rest)%list
    by now rewrite <- app_assoc.
  rewrite (str_find_from_drop_none _ _ _ Hclose), py_slice_drop_last.
  unfold str_strip. now rewrite strip_with_idemp.
Qed.

(* ===================================================================== *)
(** ** src/llm.py: the model call, and the pipeline on top of it *)
(* ===================================================================== *)

Section LlmCall.
Context (base : Runtime) `{cfg : Settings}.
Variable chat : string -> @World base -> Res pystr * @World base.
Variable json_loads : pystr -> decoded.

(** Without an API key the model is never contacted: once the prompt is
    built, the classify stage records the missing key, the traversal
    ends in [error_handler], and the world is the one the reading of the
    prompt file left, whatever the chat model would have answered. *)
Theorem no_api_key_ends_in_error_handler
    (chunk0 : ChunkData) (w w1 : @World base) (template prompt : string) :
  @read_text base "classify_prompt.txt" w = (Returns template, w1) ->
  @format_classify base template (text chunk0) = Returns prompt ->
  @evaluate_chunk_trace (with_llm base "" chat json_loads) cfg chunk0 w
  = (Returns
       ({| chunk := chunk0; classification := None; scoring := None;
           errors :=
             ["classify_node: OPENAI_API_KEY not set. Please set it in your .env file or environment.";
              "No classification to validate"];
           keep := false; signal_record := None |},
        [Classify; ValidateEvidence; ErrorHandler]), w1).
Proof.
  intros Hread Hformat.
  apply (@run_after_classify_error (with_llm base "" chat json_loads) cfg chunk0 w w1
           ["classify_node: OPENAI_API_KEY not set. Please set it in your .env file or environment."]);
    [discriminate |].
  unfold classify_node. open_monad. cbn [with_llm read_text format_classify].
  cbn [initial_state chunk]. rewrite Hread, Hformat. reflexivity.
Qed.

(** A reply that wraps its JSON in a [```json] fence is decoded as the
    bare payload would be: the value [json.loads] gives for the stripped
    payload is the value of the call. *)
Theorem fenced_reply_is_decoded
    (key prompt : string) (w w' : @World base) (pre body post : pystr) (v : json) :
  key <> "" ->
  chat prompt w = (Returns (pre ++ lit "```json" ++ body ++ lit "```" ++ post)%list, w') ->
  Forall (fun c => c <> backtick) pre ->
  Forall (fun c => c <> backtick) body ->
  json_loads (str_strip body) = Decoded v ->
  Llm.invoke_llm_json (@World base) key chat json_loads prompt w = (Returns v, w').
Proof.
  intros Hkey Hchat Hpre Hbody Hv.
  unfold Llm.invoke_llm_json, Llm.get_llm.
  apply String.eqb_neq in Hkey. rewrite Hkey, Hchat.
  now rewrite extract_json_between_fences, Hv.
Qed.
End LlmCall.
(* ===================================================================== *)
(** ** src/utils.py: truncation and slugs *)
(* ===================================================================== *)

(** With a limit of at least 3, [truncate_text] never returns more than
    [max_length] characters: a text that fits comes back unchanged, a
    longer one is cut to its first [max_length - 3] characters followed
    by three dots, exactly [max_length] characters in all. *)
Theorem truncate_text_bound (text : pystr) (max_length : Z) :
  (3 <= max_length)%Z ->
  (Z.of_nat (length (truncate_text text max_length)) <= max_length)%Z /\
  ((Z.of_nat (length text) <= max_length)%Z -> truncate_text text max_length = text) /\
  ((max_length < Z.of_nat (length text))%Z ->
   truncate_text text max_length
   = (take (Z.to_nat (max_length - 3)) text ++ lit "...")%list /\
   Z.of_nat (length (truncate_text text max_length)) = max_length).
Proof.
  intros Hmax. unfold truncate_text.
  destruct (Z.leb_spec (Z.of_nat (length text)) max_length) as [Hfit | Hlong].
  - repeat split; [lia | lia |]; lia.
  - assert (Hcut : py_slice text 0 (max_length - 3)
                   = take (Z.to_nat (max_length - 3)) text).
    { unfold py_slice. rewrite !clamp_index_inside by lia.
      destruct (Z.ltb_spec 0 (max_length - 3)).
      - now rewrite Z.sub_0_r.
      - replace (Z.to_nat (max_length - 3)) with 0 by lia. reflexivity. }
    rewrite Hcut.
    assert (Hlen : Z.of_nat (length (take (Z.to_nat (max_length - 3)) text ++ lit "...")%list)
                   = max_length).
    { rewrite length_app, length_take. cbn [lit length map String.list_ascii_of_string].
      lia. }
    repeat split; [lia | lia | exact Hlen].
Qed.

Lemma single_hyphens_cons (a : N) (s : pystr) :
  single_hyphens (a :: s) <->
  ~ (a = hyphen /\ head s = Some hyphen) /\ single_hyphens s.
Proof.
  destruct s as [|b s]; cbn [single_hyphens head].
  - split; [intros _; split; [intros [_ [=]] | exact I] | intros _; exact I].
  - split; intros [Hn Hs]; (split; [| exact Hs]); intros [Ha Hb]; apply Hn;
      split; congruence.
Qed.

Lemma is_hyphen_spec (c : N) : is_hyphen c = true <-> c = hyphen.
Proof. unfold is_hyphen. apply N.eqb_eq. Qed.

Lemma Forall_lstrip (P : N -> Prop) (p : N -> bool) (s : pystr) :
  Forall P s -> Forall P (lstrip_with p s).
Proof.
  induction 1 as [|x s Hx Hs IH]; cbn; [constructor |].
  destruct (p x); [exact IH | now constructor].
Qed.

Lemma Forall_rstrip (P : N -> Prop) (p : N -> bool) (s : pystr) :
  Forall P s -> Forall P (rstrip_with p s).
Proof.
  induction 1 as [|x s Hx Hs IH]; cbn; [constructor |].
  destruct (rstrip_with p s) as [|y kept].
  - destruct (p x); repeat constructor; auto.
  - constructor; auto.
Qed.

Lemma Forall_sub_runs (P : N -> Prop) (cls : N -> bool) (rep : pystr) (s : pystr) :
  Forall P rep -> Forall P s -> forall b, Forall P (sub_runs cls rep b s).
Proof.
  intros Hrep. induction 1 as [|x s Hx Hs IH]; intros b; cbn; [constructor |].
  destruct (cls x); [destruct b |]; auto.
  - apply Forall_app. auto.
Qed.

Lemma single_hyphens_lstrip (p : N -> bool) (s : pystr) :
  single_hyphens s -> single_hyphens (lstrip_with p s).
Proof.
  induction s as [|x s IH]; [auto |]. intros Hs. cbn [lstrip_with].
  destruct (p x); [| exact Hs]. apply IH. now apply single_hyphens_cons in Hs.
Qed.

Lemma single_hyphens_rstrip (p : N -> bool) (s : pystr) :
  single_hyphens s -> single_hyphens (rstrip_with p s).
Proof.
  induction s as [|x s IH]; [auto |]. intros Hs. cbn [rstrip_with].
  apply single_hyphens_cons in Hs as [Hn Hs].
  destruct (rstrip_with p s) as [|y kept] eqn:Hk.
  - destruct (p x); exact I.
  - apply single_hyphens_cons. split; [| now apply IH].
    intros [Hx Hy]. apply Hn. split; [exact Hx |].
    apply (rstrip_head p). now rewrite Hk.
Qed.

(** Collapsing runs of hyphens leaves single hyphens; after a hyphen
    the output does not start with one. *)
Lemma sub_runs_single_hyphens (s : pystr) :
  forall b,
    single_hyphens (sub_runs is_hyphen [hyphen] b s) /\
    (b = true -> head (sub_runs is_hyphen [hyphen] b s) <> Some hyphen).
Proof.
  induction s as [|x s IH]; intros b; cbn [sub_runs].
  - split; [exact I | discriminate].
  - destruct (is_hyphen x) eqn:Hx.
    + destruct b.
      * apply IH.
      * split; [| discriminate].
        cbn [app]. apply single_hyphens_cons. split; [| apply IH].
        intros [_ Hh]. now apply (proj2 (IH true)).
    + split.
      * apply single_hyphens_cons. split; [| apply IH].
        intros [Hxh _]. apply is_hyphen_spec in Hxh. congruence.
      * intros _ [= Hxh]. apply is_hyphen_spec in Hxh. congruence.
Qed.

Lemma sub_runs_no_match (cls : N -> bool) (rep : pystr) (s : pystr) :
  Forall (fun c => cls c = false) s -> forall b, sub_runs cls rep b s = s.
Proof.
  induction 1 as [|x s Hx Hs IH]; intros b; cbn; [reflexivity |].
  now rewrite Hx, IH.
Qed.

Lemma sub_runs_of_single_hyphens (s : pystr) :
  single_hyphens s ->
  forall b, (b = true -> head s <> Some hyphen) ->
            sub_runs is_hyphen [hyphen] b s = s.
Proof.
  induction s as [|x s IH]; intros Hs b Hb; [reflexivity |].
  apply single_hyphens_cons in Hs as [Hn Hs]. cbn [sub_runs].
  destruct (is_hyphen x) eqn:Hx.
  - apply is_hyphen_spec in Hx. subst x.
    destruct b; [exfalso; now apply Hb |].
    cbn [app]. rewrite IH; [reflexivity | exact Hs |].
    intros _ Hh. apply Hn. auto.
  - rewrite IH; [reflexivity | exact Hs | discriminate].
Qed.

Lemma slug_char_not_space_or_underscore (c : N) :
  slug_char c = true -> space_or_underscore c = false.
Proof.
  unfold slug_char, space_or_underscore, is_space. intros H.
  repeat match goal with
         | H : (_ || _)%bool = true |- _ => apply orb_true_iff in H as [H | H]
         | H : (_ && _)%bool = true |- _ => apply andb_true_iff in H as [? ?]
         | H : (_ <=? _)%N = true |- _ => apply N.leb_le in H
         | H : (_ =? _)%N = true |- _ => apply N.eqb_eq in H
         end;
    repeat match goal with
           | |- (_ || _)%bool = false => apply orb_false_iff; split
           | |- (_ && _)%bool = false => apply andb_false_iff
           end;
    try (apply N.eqb_neq; lia);
    try (left; apply N.leb_gt; lia); try (right; apply N.leb_gt; lia).
Qed.

Lemma filter_all_slug_chars (s : list N) :
  Forall (fun c => slug_char c = true) s ->
  filter (fun c => slug_char c = true) s = s.
Proof.
  induction 1 as [|x s Hx Hs IH]; [reflexivity |].
  rewrite filter_cons, decide_True by exact Hx. now rewrite IH.
Qed.

Section SlugProperties.
Variable lower : pystr -> pystr.

Lemma slugify_shape (text : pystr) :
  Forall (fun c => slug_char c = true) (slugify lower text) /\
  single_hyphens (slugify lower text) /\
  head (slugify lower text) <> Some hyphen /\
  last (slugify lower text) <> Some hyphen.
Proof.
  unfold slugify. repeat apply conj.
  - unfold strip_with. apply Forall_rstrip, Forall_lstrip, Forall_sub_runs.
    + repeat constructor.
    + apply Forall_forall. intros c Hc. now apply list_elem_of_filter in Hc.
  - unfold strip_with. apply single_hyphens_rstrip, single_hyphens_lstrip.
    apply sub_runs_single_hyphens.
  - intros Hh. apply strip_with_clean in Hh. discriminate.
  - intros Hl. apply strip_with_clean in Hl. discriminate.
Qed.

(** Whatever the text and whatever lower-casing does, a slug holds only
    [a-z], [0-9] and hyphens, never two hyphens in a row, and no hyphen
    at either end. *)
Theorem slugify_well_formed (text : pystr) :
  Forall (fun c => slug_char c = true) (slugify lower text) /\
  single_hyphens (slugify lower text) /\
  head (slugify lower text) <> Some hyphen /\
  last (slugify lower text) <> Some hyphen.
Proof. exact (slugify_shape text). Qed.

(** A slug is its own slug, lower-casing being the identity on text in
    [a-z0-9-]. *)
Theorem slugify_idempotent (text : pystr) :
  (forall s, Forall (fun c => slug_char c = true) s -> lower s = s) ->
  slugify lower (slugify lower text) = slugify lower text.
Proof.
  intros Hlower.
  destruct (slugify_shape text) as (Hchars & Hsingle & Hhead & Hlast).
  set (slug := slugify lower text) in *.
  unfold slugify at 1. rewrite (Hlower slug Hchars).
  rewrite (sub_runs_no_match space_or_underscore [hyphen] slug)
    by (eapply Forall_impl; [exact Hchars | apply slug_char_not_space_or_underscore]).
  rewrite (filter_all_slug_chars slug Hchars).
  rewrite sub_runs_of_single_hyphens by (auto; discriminate).
  apply strip_with_fixed; intros c Hc; apply N.eqb_neq; congruence.
Qed.
End SlugProperties.
(* ===================================================================== *)
(** ** scripts/evaluate_with_langgraph.py: reading chunks.jsonl *)
(* ===================================================================== *)

Section LoadChunksProperties.
Variable json_loads : pystr -> decoded.

Lemma load_chunks_loop_app (before rest : list pystr) :
  forall chunks,
    load_chunks_loop json_loads chunks (before ++ rest)
    = match load_chunks_loop json_loads chunks before with
      | Returns loaded => load_chunks_loop json_loads loaded rest
      | Raises e => Raises e
      end.
Proof.
  induction before as [|line before IH]; intros chunks; [reflexivity |].
  cbn [app load_chunks_loop].
  destruct (str_strip line); [apply IH |].
  destruct (json_loads _); [| apply IH | reflexivity].
  destruct (chunk_data_of v); [apply IH | reflexivity].
Qed.

Lemma chunk_data_of_object (m : gmap string json) :
  exists chunk_data, chunk_data_of (JObj m) = Returns chunk_data.
Proof. unfold chunk_data_of. cbn. eauto. Qed.

Lemma chunk_data_of_non_object (v : json) :
  (forall m, v <> JObj m) -> exists msg, chunk_data_of v = Raises (AttributeError msg).
Proof.
  intros Hv. unfold chunk_data_of.
  destruct v; cbn [py_get res_bind]; eauto. now destruct (Hv m).
Qed.

Lemma chunk_data_of_date (v : json) (chunk_data : LoadedChunk.t) :
  chunk_data_of v = Returns chunk_data ->
  LoadedChunk.meeting_date chunk_data = JNull \/
  py_truthy (LoadedChunk.meeting_date chunk_data) = true.
Proof.
  unfold chunk_data_of. destruct v; cbn [py_get res_bind]; try discriminate.
  intros [= <-]. cbn.
  destruct (py_truthy (default JNull (m !! "meeting_date"))) eqn:Ht; auto.
Qed.

(** A line that is blank once stripped, or that the decoder rejects
    with a [JSONDecodeError], changes nothing: the file loads as it
    would without the line.  A line the decoder rejects with any other
    exception (a [ValueError] for an integer over the digit limit, a
    [RecursionError]) is not passed over: after lines that load, the
    exception leaves [load_chunks], whatever follows the line. *)
Theorem load_chunks_skips_only_decode_errors
    (before after : list pystr) (line : pystr) :
  (skipped_line json_loads line ->
   load_chunks json_loads (before ++ line :: after)
   = load_chunks json_loads (before ++ after)) /\
  (forall loaded e,
     load_chunks json_loads before = Returns loaded ->
     str_strip line <> [] ->
     json_loads (str_strip line) = DecodeRaises e ->
     load_chunks json_loads (before ++ line :: after) = Raises e).
Proof.
  split.
  - intros Hskip. unfold load_chunks. rewrite !load_chunks_loop_app.
    destruct (load_chunks_loop json_loads [] before) as [loaded|e]; [| reflexivity].
    cbn [load_chunks_loop].
    destruct Hskip as [-> | [msg Hmsg]]; [reflexivity |].
    destruct (str_strip line); [reflexivity |]. now rewrite Hmsg.
  - intros loaded e Hbefore Hne Hraises. unfold load_chunks in *.
    rewrite load_chunks_loop_app, Hbefore. cbn [load_chunks_loop].
    destruct (str_strip line) as [|c stripped]; [congruence |].
    now rewrite Hraises.
Qed.

(** A line holding JSON that is not an object stops the load with an
    [AttributeError], whatever follows it: only a decoding error is
    caught. *)
Theorem load_chunks_aborts_on_non_object
    (before after : list pystr) (line : pystr) (loaded : list LoadedChunk.t) :
  load_chunks json_loads before = Returns loaded ->
  non_object_line json_loads line ->
  exists msg,
    load_chunks json_loads (before ++ line :: after) = Raises (AttributeError msg).
Proof.
  intros Hbefore (Hne & v & Hv & Hobj). unfold load_chunks in *.
  rewrite load_chunks_loop_app, Hbefore. cbn [load_chunks_loop].
  destruct (str_strip line) as [|c stripped]; [congruence |].
  rewrite Hv.
  destruct (chunk_data_of_non_object v Hobj) as [msg ->]. eauto.
Qed.

Lemma load_chunks_loop_invariant (lines : list pystr) :
  forall chunks loaded,
    load_chunks_loop json_loads chunks lines = Returns loaded ->
    Forall (fun c => LoadedChunk.meeting_date c = JNull \/
                     py_truthy (LoadedChunk.meeting_date c) = true) chunks ->
    length loaded <= length chunks + length lines /\
    Forall (fun c => LoadedChunk.meeting_date c = JNull \/
                     py_truthy (LoadedChunk.meeting_date c) = true) loaded.
Proof.
  induction lines as [|line lines IH]; intros chunks loaded Hload Hinv.
  - injection Hload as <-. split; [cbn; lia | exact Hinv].
  - cbn [load_chunks_loop length] in *.
    destruct (str_strip line).
    + destruct (IH _ _ Hload Hinv). split; [lia | auto].
    + destruct (json_loads _) as [v|msg|e]; [| | discriminate].
      * destruct (chunk_data_of v) as [chunk_data|e] eqn:Hdata; [| discriminate].
        destruct (IH _ _ Hload) as [Hlen Hall].
        -- apply Forall_app. split; [exact Hinv |].
           constructor; [| constructor]. eapply chunk_data_of_date, Hdata.
        -- rewrite length_app in Hlen. cbn in Hlen. split; [lia | exact Hall].
      * destruct (IH _ _ Hload Hinv). split; [lia | auto].
Qed.

(** When the load succeeds it yields at most one chunk per line, and no
    chunk has a false meeting date: an empty string, a zero, an empty
    list or object given as the date has become [None]. *)
Theorem load_chunks_normalises_dates (lines : list pystr) (loaded : list LoadedChunk.t) :
  load_chunks json_loads lines = Returns loaded ->
  length loaded <= length lines /\
  Forall (fun c => LoadedChunk.meeting_date c = JNull \/
                   py_truthy (LoadedChunk.meeting_date c) = true) loaded.
Proof.
  intros Hload.
  apply (load_chunks_loop_invariant lines [] loaded Hload). constructor.
Qed.
End LoadChunksProperties.

(* ===================================================================== *)
(** ** scripts/export_signals.py: deduplication *)
(* ===================================================================== *)

(** The key of a typed signal, as the three strings the dict sees. *)
Lemma text_field_default (m : gmap string json) (name a : string) :
  text_field m name = Some a -> default (JStr "") (m !! name) = JStr a.
Proof.
  unfold text_field. destruct (m !! name) as [[]|]; cbn; congruence.
Qed.

Lemma typed_signal_functional (s : json) tk tk' (n n' : Z) :
  typed_signal s tk n -> typed_signal s tk' n' -> tk = tk' /\ n = n'.
Proof.
  intros (m & a & c & e & -> & Ha & Hc & He & -> & Hn)
         (m' & a' & c' & e' & [= <-] & Ha' & Hc' & He' & -> & Hn').
  split; congruence.
Qed.

Lemma py_eq_scalar_str (s t : string) :
  py_eq_scalar (JStr s) (JStr t) = true <-> s = t.
Proof. cbn. apply String.eqb_eq. Qed.

Lemma key_eqb_strings (a c e a' c' e' : string) :
  key_eqb (JStr a, JStr c, JStr e) (JStr a', JStr c', JStr e') = true
  <-> (a, c, e) = (a', c', e').
Proof.
  unfold key_eqb. cbn [fst snd]. rewrite !andb_true_iff, !py_eq_scalar_str.
  split; [intros [[-> ->] ->]; reflexivity | intros [= -> -> ->]; auto].
Qed.

Section DeduplicateProperties.
Variable list_gt : list json -> list json -> Res bool.

Let jkey (tk : string * string * string) : json * json * json :=
  (JStr tk.1.1, JStr tk.1.2, JStr tk.2).

Let typed_in (tk : string * string * string) (s : json) : Prop :=
  exists n, typed_signal s tk n.

(** A group of typed signals sharing the key it is filed under. *)
Let group_ok (entry : (json * json * json) * list json) : Prop :=
  exists tk, entry.1 = jkey tk /\ entry.2 <> [] /\ Forall (typed_in tk) entry.2.

Lemma jkey_inj tk tk' : jkey tk = jkey tk' -> tk = tk'.
Proof. destruct tk as [[a c] e], tk' as [[a' c'] e']. unfold jkey. cbn. congruence. Qed.

Lemma key_eqb_jkey tk tk' : key_eqb (jkey tk) (jkey tk') = true <-> tk = tk'.
Proof. destruct tk as [[a c] e], tk' as [[a' c'] e']. apply key_eqb_strings. Qed.

Lemma typed_signal_key (s : json) tk (n : Z) :
  typed_signal s tk n ->
  dedup_key s = Returns (jkey tk) /\
  key_hashable (jkey tk) = Returns tt /\
  score_key s = Returns (JInt n).
Proof.
  intros (m & a & c & e & -> & Ha & Hc & He & -> & Hn).
  unfold dedup_key, score_key. cbn [py_get res_bind].
  rewrite (text_field_default _ _ _ Ha), (text_field_default _ _ _ Hc),
    (text_field_default _ _ _ He), Hn.
  repeat split.
Qed.

Lemma py_gt_int (a b : Z) : py_gt list_gt (JInt a) (JInt b) = Returns (a >? b)%Z.
Proof.
  unfold py_gt. cbn [number_of number_compare].
  change (Z.min 0 0) with 0%Z. cbn [Z.sub Z.opp Z.add Z.pow Z.pow_pos].
  now rewrite !Z.mul_1_r.
Qed.

Lemma add_to_group_keys groups key signal k0 :
  k0 ∈ (add_to_group groups key signal).*1 -> k0 ∈ groups.*1 \/ k0 = key.
Proof.
  induction groups as [|[key' members] rest IH]; cbn.
  - rewrite list_elem_of_singleton. auto.
  - destruct (key_eqb key' key); cbn; rewrite !elem_of_cons; [tauto |].
    intros [-> | Hin]; [tauto |]. destruct (IH Hin); tauto.
Qed.

Lemma add_to_group_ok groups (s : json) tk (n : Z) :
  Forall group_ok groups ->
  NoDup groups.*1 ->
  typed_signal s tk n ->
  Forall group_ok (add_to_group groups (jkey tk) s) /\
  NoDup (add_to_group groups (jkey tk) s).*1 /\
  concat (add_to_group groups (jkey tk) s).*2 ≡ₚ s :: concat groups.*2.
Proof.
  intros Hok Hnd Hs.
  induction groups as [|[key' members] rest IH]; cbn [add_to_group].
  - repeat split.
    + repeat constructor. exists tk. cbn. repeat split; [discriminate |].
      repeat constructor. now exists n.
    + cbn. apply NoDup_singleton.
    + cbn. reflexivity.
  - apply Forall_cons in Hok as [(tk' & Hk & Hne & Hall) Hok]. cbn [fst snd] in *.
    subst key'. cbn [fmap list_fmap] in Hnd. apply NoDup_cons in Hnd as [Hnotin Hnd].
    destruct (key_eqb (jkey tk') (jkey tk)) eqn:Heq.
    + apply key_eqb_jkey in Heq as ->.
      repeat split.
      * constructor; [| exact Hok]. exists tk. cbn. repeat split.
        -- destruct members; discriminate.
        -- apply Forall_app. split; [exact Hall |]. repeat constructor. now exists n.
      * cbn. now apply NoDup_cons.
      * cbn. rewrite <- app_assoc. cbn. symmetry. apply Permutation_middle.
    + destruct (IH Hok Hnd) as (Hok' & Hnd' & Hperm).
      repeat split.
      * constructor; [| exact Hok']. exists tk'. cbn. auto.
      * cbn. apply NoDup_cons. split; [| exact Hnd'].
        intros Hin. apply add_to_group_keys in Hin as [Hin | Hin]; [tauto |].
        apply jkey_inj in Hin. subst tk'.
        assert (key_eqb (jkey tk) (jkey tk) = true) by now apply key_eqb_jkey.
        congruence.
      * cbn. rewrite Hperm. symmetry. apply Permutation_middle.
Qed.

Lemma group_signals_ok (signals : list json) :
  forall groups,
    Forall group_ok groups ->
    NoDup groups.*1 ->
    Forall (fun s => exists tk n, typed_signal s tk n) signals ->
    exists groups',
      group_signals groups signals = Returns groups' /\
      Forall group_ok groups' /\
      NoDup groups'.*1 /\
      concat groups'.*2 ≡ₚ concat groups.*2 ++ signals.
Proof.
  induction signals as [|s rest IH]; intros groups Hok Hnd Htyped.
  - exists groups. cbn. rewrite app_nil_r. auto.
  - apply Forall_cons in Htyped as [(tk & n & Hs) Htyped].
    destruct (typed_signal_key s tk n Hs) as (Hkey & Hhash & _).
    destruct (add_to_group_ok groups s tk n Hok Hnd Hs) as (Hok' & Hnd' & Hperm).
    destruct (IH _ Hok' Hnd' Htyped) as (groups' & Hrun & Hok'' & Hnd'' & Hperm').
    exists groups'. cbn [group_signals]. rewrite Hkey. cbn [res_bind].
    rewrite Hhash. cbn [res_bind]. repeat split; auto.
    rewrite Hperm', Hperm. cbn. apply Permutation_middle.
Qed.

(** Within a group of typed signals, [max] returns a member no other
    member outscores. *)
Lemma max_from_typed tk (rest : list json) :
  forall best nb,
    typed_signal best tk nb ->
    Forall (typed_in tk) rest ->
    exists o no,
      max_from list_gt best (JInt nb) rest = Returns o /\
      o ∈ best :: rest /\
      typed_signal o tk no /\
      (nb <= no)%Z /\
      Forall (fun s => forall n, typed_signal s tk n -> (n <= no)%Z) rest.
Proof.
  induction rest as [|s rest IH]; intros best nb Hbest Hrest.
  - exists best, nb. cbn. repeat split; auto; [apply list_elem_of_here | lia].
  - apply Forall_cons in Hrest as [[n Hs] Hrest].
    destruct (typed_signal_key s tk n Hs) as (_ & _ & Hscore).
    cbn [max_from]. rewrite Hscore. cbn [res_bind]. rewrite py_gt_int. cbn [res_bind].
    destruct (Z.gtb_spec n nb) as [Hgt | Hle].
    + destruct (IH s n Hs Hrest) as (o & no & Hrun & Hin & Ho & Hge & Hall).
      exists o, no. repeat split; auto; [| lia |].
      * apply list_elem_of_further. exact Hin.
      * constructor; [| exact Hall].
        intros n' Hs'. destruct (typed_signal_functional _ _ _ _ _ Hs Hs') as [_ <-]. lia.
    + destruct (IH best nb Hbest Hrest) as (o & no & Hrun & Hin & Ho & Hge & Hall).
      exists o, no. repeat split; auto.
      * apply elem_of_cons in Hin as [-> | Hin];
          [apply list_elem_of_here | do 2 apply list_elem_of_further; exact Hin].
      * constructor; [| exact Hall].
        intros n' Hs'. destruct (typed_signal_functional _ _ _ _ _ Hs Hs') as [_ <-]. lia.
Qed.

(** What the second loop returns for one group. *)
Let best_in (o : json) (entry : (json * json * json) * list json) : Prop :=
  exists tk no,
    entry.1 = jkey tk /\ o ∈ entry.2 /\ typed_signal o tk no /\
    Forall (fun s => forall n, typed_signal s tk n -> (n <= no)%Z) entry.2.

Lemma best_of_each_ok groups :
  Forall group_ok groups ->
  exists out, best_of_each list_gt groups = Returns out /\ Forall2 best_in out groups.
Proof.
  induction 1 as [|[key members] rest (tk & Hk & Hne & Hall) Hok IH].
  - exists []. split; [reflexivity | constructor].
  - cbn [fst snd] in *. destruct members as [|first others]; [congruence |].
    apply Forall_cons in Hall as [[nf Hfirst] Hothers].
    destruct (typed_signal_key first tk nf Hfirst) as (_ & _ & Hscore).
    destruct (max_from_typed tk others first nf Hfirst Hothers)
      as (o & no & Hrun & Hin & Ho & Hge & Hbest).
    destruct IH as (out & Hout & Hall2).
    exists (o :: out). cbn [best_of_each max_by_score].
    rewrite Hscore. cbn [res_bind]. rewrite Hrun. cbn [res_bind]. rewrite Hout.
    split; [reflexivity |]. constructor; [| exact Hall2].
    exists tk, no. cbn. repeat split; auto.
    constructor; [| exact Hbest].
    intros n' Hs'. destruct (typed_signal_functional _ _ _ _ _ Hfirst Hs') as [_ <-]. lia.
Qed.

Lemma best_in_submseteq out groups :
  Forall2 best_in out groups -> out ⊆+ concat groups.*2.
Proof.
  induction 1 as [|o [key members] out rest (tk & no & _ & Hin & _) _ IH]; [reflexivity |].
  cbn in *. change (o :: out) with ([o] ++ out)%list.
  apply submseteq_app; [now apply singleton_submseteq_l | exact IH].
Qed.

Lemma elem_of_concat_groups (s : json) (groups : list ((json * json * json) * list json)) :
  s ∈ concat groups.*2 -> exists entry, entry ∈ groups /\ s ∈ entry.2.
Proof.
  induction groups as [|entry rest IH]; cbn.
  - intros Hin. now apply elem_of_nil in Hin.
  - rewrite elem_of_app. intros [Hin | Hin].
    + exists entry. split; [apply list_elem_of_here | exact Hin].
    + destruct (IH Hin) as (entry' & Hin' & Hs). exists entry'.
      split; [now apply list_elem_of_further | exact Hs].
Qed.

(** The whole function on typed signals. *)
Lemma deduplicate_signals_typed (signals : list json) :
  Forall (fun s => exists tk n, typed_signal s tk n) signals ->
  exists out groups,
    deduplicate_signals list_gt signals = Returns out /\
    Forall group_ok groups /\
    NoDup groups.*1 /\
    concat groups.*2 ≡ₚ signals /\
    Forall2 best_in out groups.
Proof.
  intros Htyped.
  destruct (group_signals_ok signals [] (Forall_nil_2 _) (NoDup_nil_2) Htyped)
    as (groups & Hrun & Hok & Hnd & Hperm).
  destruct (best_of_each_ok groups Hok) as (out & Hout & Hbest).
  exists out, groups. unfold deduplicate_signals. rewrite Hrun. cbn [res_bind].
  repeat split; auto.
Qed.

(** On signals whose key fields are strings and whose scores are
    integers, [deduplicate_signals] does not raise, and what it returns
    is taken from its input: no record is invented, none is returned
    more often than it came in. *)
Theorem deduplicate_signals_returns_inputs (signals : list json) :
  Forall (fun s => exists tk n, typed_signal s tk n) signals ->
  exists out,
    deduplicate_signals list_gt signals = Returns out /\
    out ⊆+ signals.
Proof.
  intros Htyped.
  destruct (deduplicate_signals_typed signals Htyped)
    as (out & groups & Hrun & _ & _ & Hperm & Hbest).
  exists out. split; [exact Hrun |].
  rewrite <- Hperm. now apply best_in_submseteq.
Qed.

(** On such signals the result has one record per key (artifact id,
    category, first 100 characters of the evidence): the keys of the
    records returned are pairwise different, and every input record is
    represented by a returned record of the same key whose score is at
    least its own. *)
Theorem deduplicate_signals_best_per_key (signals out : list json) :
  Forall (fun s => exists tk n, typed_signal s tk n) signals ->
  deduplicate_signals list_gt signals = Returns out ->
  (exists keys,
     Forall2 (fun o tk => exists n, typed_signal o tk n) out keys /\ NoDup keys) /\
  (forall s tk n,
     s ∈ signals -> typed_signal s tk n ->
     exists o m, o ∈ out /\ typed_signal o tk m /\ (n <= m)%Z).
Proof.
  intros Htyped Hrun.
  destruct (deduplicate_signals_typed signals Htyped)
    as (out' & groups & Hrun' & Hok & Hnd & Hperm & Hbest).
  rewrite Hrun in Hrun'. injection Hrun' as <-.
  split.
  - clear Hperm Hrun Htyped.
    induction Hbest as [|o [key members] out rest (tk & no & Hk & Hin & Ho & _) Hrest IH].
    + exists []. split; constructor.
    + apply Forall_cons in Hok as [_ Hok].
      cbn [fmap list_fmap fst] in Hnd. apply NoDup_cons in Hnd as [Hnotin Hnd].
      destruct (IH Hok Hnd) as (keys & Hall & Hnd').
      exists (tk :: keys). split; [constructor; eauto |].
      apply NoDup_cons. split; [| exact Hnd'].
      intros Htk. apply Hnotin. cbn in Hk. subst key.
      clear -Htk Hall Hrest.
      revert keys Hall Htk. induction Hrest as [|o' [key' members'] out rest
                                                 (tk' & no' & Hk' & _ & Ho' & _) _ IH];
        intros keys Hall Htk; inversion Hall as [|? tk0 ? keys0 [n0 Hn0] Hall0]; subst.
      * now apply elem_of_nil in Htk.
      * cbn [fst] in Hk'. subst key'. cbn.
        apply elem_of_cons in Htk as [-> | Htk].
        -- destruct (typed_signal_functional _ _ _ _ _ Ho' Hn0) as [-> _].
           apply list_elem_of_here.
        -- apply list_elem_of_further. eapply IH; eauto.
  - intros s tk n Hin Hs.
    rewrite <- Hperm in Hin.
    apply elem_of_concat_groups in Hin as (entry & Hentry & Hmem).
    apply list_elem_of_lookup in Hentry as [i Hi].
    destruct (Forall2_lookup_r _ _ _ _ _ Hbest Hi) as (o & Ho & tk' & no & Hk & Hino & Hot & Hmax).
    apply (Forall_lookup_1 _ _ _ _ Hok) in Hi as (tk'' & Hk'' & _ & Hall).
    assert (tk'' = tk') as -> by (apply jkey_inj; congruence).
    apply (proj1 (Forall_forall _ _) Hall) in Hmem as Hs'. destruct Hs' as [n' Hs'].
    destruct (typed_signal_functional _ _ _ _ _ Hs Hs') as [-> <-].
    exists o, no. repeat split; auto.
    + now apply list_elem_of_lookup_2 in Ho.
    + apply (proj1 (Forall_forall _ _) Hmax _ Hmem). exact Hs.
Qed.

(** One record that is not an object, or whose evidence snippet is not a
    string, makes the whole deduplication raise: the other records are
    not returned. *)
Theorem deduplicate_signals_aborts_on_untyped_evidence (signals : list json) :
  Exists (fun s =>
            (forall m, s <> JObj m) \/
            exists m v, s = JObj m /\ m !! "evidence_snippet" = Some v /\
                        forall t, v <> JStr t) signals ->
  exists e, deduplicate_signals list_gt signals = Raises e.
Proof.
  intros Hbad. unfold deduplicate_signals.
  assert (Hgroup : forall groups, exists e, group_signals groups signals = Raises e).
  { induction Hbad as [s rest Hs | s rest _ IH]; intros groups; cbn [group_signals].
    - assert (Hkey : (exists e, dedup_key s = Raises e) \/
                     exists k, dedup_key s = Returns k /\
                               exists e, key_hashable k = Raises e).
      { destruct Hs as [Hs | (m & v & -> & Hv & Hnot)].
        - left. unfold dedup_key. destruct s; cbn; eauto. now destruct (Hs m).
        - unfold dedup_key. cbn [py_get res_bind]. rewrite Hv. cbn [default from_option id].
          destruct v; cbn [py_head res_bind]; eauto.
          + now destruct (Hnot s).
          + right. eexists. split; [reflexivity |].
            unfold key_hashable. cbn [fst snd].
            destruct (py_hashable _); cbn [res_bind]; eauto.
            destruct (py_hashable _); cbn [res_bind]; eauto. }
      destruct Hkey as [[e ->] | (k & -> & e & He)]; cbn [res_bind]; eauto.
      rewrite He. cbn [res_bind]. eauto.
    - destruct (dedup_key s); cbn [res_bind]; eauto.
      destruct (key_hashable _); cbn [res_bind]; eauto. }
  destruct (Hgroup []) as [e ->]. eauto.
Qed.
End DeduplicateProperties.

(* ===================================================================== *)
(** ** The properties at sample inputs *)
(* ===================================================================== *)

Lemma ascii_lower_slug_chars (s : pystr) :
  Forall (fun c => slug_char c = true) s -> ascii_lower s = s.
Proof.
  unfold ascii_lower. induction 1 as [|c s Hc _ IH]; [reflexivity |].
  cbn [map]. rewrite IH. f_equal.
  unfold slug_char in Hc.
  destruct ((65 <=? c) && (c <=? 90))%N eqn:Hupper; [| reflexivity].
  apply andb_true_iff in Hupper as [H1 H2].
  apply N.leb_le in H1, H2.
  rewrite !orb_true_iff, !andb_true_iff, !N.leb_le, N.eqb_eq in Hc. lia.
Qed.

Lemma sample_signals_typed :
  Forall (fun s => exists tk n, typed_signal s tk n)
    [sample_signal "a pilot" 40; sample_signal "a pilot" 62; sample_signal "an RFP" 55].
Proof.
  repeat constructor;
    (eexists (_, _, _), _; unfold typed_signal; eexists _, _, _, _;
     repeat apply conj; [reflexivity | vm_compute; reflexivity ..]).
Qed.

Lemma limit_applies_before_resume_witness :
  (forall c, c ∈ chunks_to_evaluate 1 {["a1_c0"]} [sample_chunk; sample_chunk] <->
             c ∈ take (Z.to_nat 1) [sample_chunk; sample_chunk] /\
             chunk_id c ∉ ({["a1_c0"]} : gset string)) /\
  (Z.of_nat (length (chunks_to_evaluate 1 {["a1_c0"]} [sample_chunk; sample_chunk])) <= 1)%Z /\
  ((forall c, c ∈ take (Z.to_nat 1) [sample_chunk; sample_chunk] ->
              chunk_id c ∈ ({["a1_c0"]} : gset string)) ->
   chunks_to_evaluate 1 {["a1_c0"]} [sample_chunk; sample_chunk] = []).
Proof. apply limit_applies_before_resume. lia. Defined.

Lemma extract_json_without_fence_witness :
  Llm._extract_json_from_response (lit "  {}  ") = str_strip (lit "  {}  ").
Proof. apply extract_json_without_fence. vm_compute. reflexivity. Defined.

Lemma extract_json_fenced_witness :
  Llm._extract_json_from_response
    (lit "Here: " ++ lit "```json" ++ lit " {} " ++ lit "```" ++ lit " Done.")%list
  = str_strip (lit " {} ").
Proof.
  apply extract_json_fenced; repeat constructor; vm_compute; discriminate.
Defined.

Lemma extract_json_plain_fence_witness :
  Llm._extract_json_from_response
    (lit "Here: " ++ lit "```" ++ lit " {} " ++ lit "```" ++ lit " Done.")%list
  = str_strip (lit " {} ").
Proof.
  apply extract_json_plain_fence;
    [repeat constructor; vm_compute; discriminate ..| vm_compute; reflexivity].
Defined.

Lemma extract_json_unclosed_fence_witness :
  Llm._extract_json_from_response (lit "Here: " ++ lit "```json" ++ lit " {}")%list
  = str_strip (removelast (lit " {}")).
Proof.
  apply extract_json_unclosed_fence; repeat constructor; vm_compute; discriminate.
Defined.

Lemma no_api_key_ends_in_error_handler_witness :
  @evaluate_chunk_trace (with_llm scripted "" sample_chat sample_json_loads)
    default_settings sample_chunk []
  = (Returns
       ({| chunk := sample_chunk; classification := None; scoring := None;
           errors :=
             ["classify_node: OPENAI_API_KEY not set. Please set it in your .env file or environment.";
              "No classification to validate"];
           keep := false; signal_record := None |},
        [Classify; ValidateEvidence; ErrorHandler]), []).
Proof.
  apply (no_api_key_ends_in_error_handler scripted sample_chat sample_json_loads
           sample_chunk [] [] "classify_prompt.txt"
           ("classify_prompt.txt" +:+ text sample_chunk)); reflexivity.
Defined.

Lemma fenced_reply_is_decoded_witness :
  Llm.invoke_llm_json (@World scripted) "sk-sample" sample_chat sample_json_loads
    "prompt" []
  = (Returns (JObj ∅), []).
Proof.
  apply (fenced_reply_is_decoded scripted sample_chat sample_json_loads
           "sk-sample" "prompt" [] []
           (lit "Here is the result: ") (lit " {} ") (lit " Let me know.") (JObj ∅)).
  - discriminate.
  - reflexivity.
  - repeat constructor; vm_compute; discriminate.
  - repeat constructor; vm_compute; discriminate.
  - vm_compute. reflexivity.
Defined.

Lemma truncate_text_bound_witness :
  (Z.of_nat (length (truncate_text (lit "curriculum") 6)) <= 6)%Z /\
  ((Z.of_nat (length (lit "curriculum")) <= 6)%Z ->
   truncate_text (lit "curriculum") 6 = lit "curriculum") /\
  ((6 < Z.of_nat (length (lit "curriculum")))%Z ->
   truncate_text (lit "curriculum") 6
   = (take (Z.to_nat (6 - 3)) (lit "curriculum") ++ lit "...")%list /\
   Z.of_nat (length (truncate_text (lit "curriculum") 6)) = 6%Z).
Proof. apply truncate_text_bound. lia. Defined.

Lemma slugify_idempotent_witness :
  slugify ascii_lower (slugify ascii_lower (lit "Salt Lake_City  School District!"))
  = slugify ascii_lower (lit "Salt Lake_City  School District!").
Proof. apply slugify_idempotent. exact ascii_lower_slug_chars. Defined.

Lemma load_chunks_skips_only_decode_errors_witness :
  load_chunks sample_json_loads ([lit "{}"] ++ lit "not json" :: [lit "{}"])
  = load_chunks sample_json_loads ([lit "{}"] ++ [lit "{}"]) /\
  load_chunks sample_json_loads ([lit "{}"] ++ long_number :: [lit "{}"])
  = Raises (ValueError "Exceeds the limit (4300 digits) for integer string conversion").
Proof.
  split.
  - apply load_chunks_skips_only_decode_errors.
    right. eexists. vm_compute. reflexivity.
  - eapply load_chunks_skips_only_decode_errors.
    + vm_compute. reflexivity.
    + vm_compute. discriminate.
    + vm_compute. reflexivity.
Defined.

Lemma load_chunks_aborts_on_non_object_witness :
  exists msg,
    load_chunks sample_json_loads ([lit "{}"] ++ lit "[]" :: [lit "{}"])
    = Raises (AttributeError msg).
Proof.
  eapply load_chunks_aborts_on_non_object.
  - vm_compute. reflexivity.
  - split; [vm_compute; discriminate |].
    eexists. split; [vm_compute; reflexivity | discriminate].
Defined.

Lemma load_chunks_normalises_dates_witness :
  exists loaded,
    load_chunks sample_json_loads [lit "{}"; lit "   "; lit " {} "] = Returns loaded /\
    length loaded <= 3 /\
    Forall (fun c => LoadedChunk.meeting_date c = JNull \/
                     py_truthy (LoadedChunk.meeting_date c) = true) loaded.
Proof.
  eexists.
  assert (Hload : load_chunks sample_json_loads [lit "{}"; lit "   "; lit " {} "]
                  = Returns _) by (vm_compute; reflexivity).
  split; [exact Hload |].
  exact (load_chunks_normalises_dates sample_json_loads _ _ Hload).
Defined.

Lemma deduplicate_signals_returns_inputs_witness :
  exists out,
    deduplicate_signals sample_list_gt
      [sample_signal "a pilot" 40; sample_signal "a pilot" 62; sample_signal "an RFP" 55]
    = Returns out /\
    out ⊆+ [sample_signal "a pilot" 40; sample_signal "a pilot" 62;
            sample_signal "an RFP" 55].
Proof. apply deduplicate_signals_returns_inputs. exact sample_signals_typed. Defined.

Lemma deduplicate_signals_best_per_key_witness :
  (exists keys,
     Forall2 (fun o tk => exists n, typed_signal o tk n)
       [sample_signal "a pilot" 62; sample_signal "an RFP" 55] keys /\ NoDup keys) /\
  (forall s tk n,
     s ∈ [sample_signal "a pilot" 40; sample_signal "a pilot" 62;
          sample_signal "an RFP" 55] ->
     typed_signal s tk n ->
     exists o m, o ∈ [sample_signal "a pilot" 62; sample_signal "an RFP" 55] /\
                 typed_signal o tk m /\ (n <= m)%Z).
Proof.
  apply (deduplicate_signals_best_per_key sample_list_gt);
    [exact sample_signals_typed | vm_compute; reflexivity].
Defined.

Lemma deduplicate_signals_aborts_on_untyped_evidence_witness :
  exists e,
    deduplicate_signals sample_list_gt
      [sample_signal "a pilot" 40;
       JObj (<["evidence_snippet" := JNull]> ∅);
       sample_signal "an RFP" 55]
    = Raises e.
Proof.
  apply deduplicate_signals_aborts_on_untyped_evidence.
  apply Exists_cons_tl, Exists_cons_hd. right.
  eexists _, _. repeat apply conj; [reflexivity | reflexivity | discriminate].
Defined.
